(** * EventHub: a shallow embedding of the schema, its row policies and
      the pages that read and write it.

    The repository is a React client over a PostgreSQL schema reached
    through PostgREST.  The embedding follows that split:

    - [Js]: JavaScript strings (UTF-16 code units), [trim], [includes],
      binary64 division of integers and [toFixed(1)];
    - [Zod]: the validation schemas of the pages;
    - [Db]: the four tables, their constraints, the row level security
      policies and the statements the pages send;
    - [CreateEvent], [EventDetails], [Index], [ProfilePage]: the handlers
      of the pages, as functions from a database and a page state to a
      database, a page state and the list of effects (toasts, navigation)
      they perform;
    - [Trends]: the day-bucketed series, which has no source file.

    Definitions come first, lemmas and theorems after them. *)

From Stdlib Require Import ZArith NArith List Bool String Ascii Lia.
From Stdlib Require Import Permutation Sorted.
From Stdlib Require Import DecimalString.
From Stdlib Require Floats.SpecFloat.
Import ListNotations.
Open Scope Z_scope.

(* ===================================================================== *)
(** * JavaScript values *)
(* ===================================================================== *)

Module Js.

(** A JavaScript string is a sequence of UTF-16 code units; [length]
    counts code units. *)
Definition jsstring := list N.

Definition str (s : string) : jsstring :=
  map N_of_ascii (list_ascii_of_string s).

Definition length (s : jsstring) : Z := Z.of_nat (List.length s).

(** The code units [String.prototype.trim] strips: WhiteSpace and
    LineTerminator of ECMA-262. *)
Definition isWhiteSpace (c : N) : bool :=
  ((c =? 9) || (c =? 10) || (c =? 11) || (c =? 12) || (c =? 13)
   || (c =? 32) || (c =? 160) || (c =? 5760)
   || ((8192 <=? c) && (c <=? 8202))
   || (c =? 8232) || (c =? 8233) || (c =? 8239) || (c =? 8287)
   || (c =? 12288) || (c =? 65279))%N.

Fixpoint trimStart (s : jsstring) : jsstring :=
  match s with
  | [] => []
  | c :: s' => if isWhiteSpace c then trimStart s' else s
  end.

Definition trimEnd (s : jsstring) : jsstring := rev (trimStart (rev s)).

Definition trim (s : jsstring) : jsstring := trimEnd (trimStart s).

Fixpoint startsWith (s t : jsstring) : bool :=
  match t, s with
  | [], _ => true
  | _ :: _, [] => false
  | b :: t', a :: s' => (a =? b)%N && startsWith s' t'
  end.

(** [s.includes(t)]: [t] occurs in [s] as a contiguous run. *)
Fixpoint includes (s t : jsstring) : bool :=
  startsWith s t
  || match s with
     | [] => false
     | _ :: s' => includes s' t
     end.

(** ** Numbers

    The only non-integer arithmetic of the pages is the division of
    [avgRating].  Both operands are positive integers below 2^53, so
    they are exact binary64 values, and IEEE 754 division returns the
    binary64 value nearest to the exact quotient, ties to the even
    significand.  A positive finite double is kept as a pair [(m, e)]
    standing for [m * 2^e]. *)

Record double := { mant : Z; expo : Z }.

(** [n / d] rounded to the nearest integer, ties to even ([0 < d]). *)
Definition round_half_even (n d : Z) : Z :=
  let q := n / d in
  let r := n mod d in
  if 2 * r <? d then q
  else if d <? 2 * r then q + 1
  else if Z.even q then q else q + 1.

(** Binary64 division [a / b] for integers [0 < a, b < 2^53]: the
    quotient is scaled by [2^k] so that it lies in [[2^52, 2^53)], and
    rounded there; a significand rounded up to [2^53] is renormalised. *)
Definition fdiv (a b : Z) : double :=
  let d := Z.log2 a - Z.log2 b in
  let k0 := 52 - d in
  let k := if 2 ^ 52 * b <=? a * 2 ^ k0 then k0 else k0 + 1 in
  let m := round_half_even (a * 2 ^ k) b in
  if m =? 2 ^ 53 then {| mant := 2 ^ 52; expo := 1 - k |}
  else {| mant := m; expo := - k |}.

(** [Number.prototype.toFixed(1)], step "let n be an integer for which
    n / 10 - x is as close to zero as possible; if there are two such
    n, pick the larger", for a double [m * 2^e] with [e <= 0]. *)
Definition toFixed1_n (x : double) : Z :=
  let k := - expo x in
  (20 * mant x + 2 ^ k) / 2 ^ (k + 1).

Definition digits (n : Z) : string :=
  NilZero.string_of_uint (N.to_uint (Z.to_N n)).

(** The digits of [n] with a point before the last one. *)
Definition toFixed1 (x : double) : string :=
  let n := toFixed1_n x in
  (digits (n / 10) ++ "." ++ digits (n mod 10))%string.

End Js.

(* ===================================================================== *)
(** * The database: tables, constraints, policies, statements *)
(* ===================================================================== *)

Module Db.

Definition uuid := Z.

(** A [TIMESTAMPTZ]: an instant, in milliseconds since the epoch. *)
Definition timestamptz := Z.

(** [CREATE TYPE public.rsvp_status AS ENUM ('going', 'maybe', 'not_going')] *)
Inductive rsvp_status := going | maybe | not_going.

Module Profile.
Record t := {
  id : uuid;
  full_name : Js.jsstring;
  bio : option Js.jsstring;
  location : option Js.jsstring;
  profile_picture : option Js.jsstring;
  created_at : timestamptz;
  updated_at : timestamptz }.
End Profile.

Module Event.
Record t := {
  id : uuid;
  title : Js.jsstring;
  description : Js.jsstring;
  organizer_id : uuid;
  location : Js.jsstring;
  start_time : timestamptz;
  end_time : timestamptz;
  is_public : bool;
  created_at : timestamptz;
  updated_at : timestamptz }.
End Event.

Module Rsvp.
Record t := {
  id : uuid;
  event_id : uuid;
  user_id : uuid;
  status : rsvp_status;
  created_at : timestamptz;
  updated_at : timestamptz }.

Definition key (r : t) : uuid * uuid := (event_id r, user_id r).
End Rsvp.

Module Review.
Record t := {
  id : uuid;
  event_id : uuid;
  user_id : uuid;
  rating : Z;
  comment : Js.jsstring;
  created_at : timestamptz;
  updated_at : timestamptz }.

Definition key (r : t) : uuid * uuid := (event_id r, user_id r).
End Review.

(** The stored state: one list of rows per table. *)
Record t := {
  profiles : list Profile.t;
  events : list Event.t;
  rsvps : list Rsvp.t;
  reviews : list Review.t }.

Definition empty : t :=
  {| profiles := []; events := []; rsvps := []; reviews := [] |}.

(** ** Errors a statement comes back with *)

Inductive error :=
| rls_violation (table : string)
| check_violation (table constraint : string)
| unique_violation (constraint : string)
| foreign_key_violation (table constraint : string)
| no_single_row.

Definition quoted (s : string) : string :=
  let q := String (ascii_of_nat 34) EmptyString in
  (q ++ s ++ q)%string.

(** The [message] of the error object, in PostgreSQL's and PostgREST's
    wording. *)
Definition message (e : error) : string :=
  match e with
  | rls_violation tbl =>
      "new row violates row-level security policy for table " ++ quoted tbl
  | check_violation tbl c =>
      "new row for relation " ++ quoted tbl
      ++ " violates check constraint " ++ quoted c
  | unique_violation c =>
      "duplicate key value violates unique constraint " ++ quoted c
  | foreign_key_violation tbl c =>
      "insert or update on table " ++ quoted tbl
      ++ " violates foreign key constraint " ++ quoted c
  | no_single_row =>
      "JSON object requested, multiple (or no) rows returned"
  end%string.

(** [auth.uid()] is the caller's identity, [None] for the anonymous
    role; [auth.uid() = x] is then NULL, which a policy reads as false. *)
Definition uid_is (uid : option uuid) (x : uuid) : bool :=
  match uid with
  | Some u => u =? x
  | None => false
  end.

(** ** Row level security policies *)

(** "Profiles are viewable by everyone" *)
Definition profiles_select (uid : option uuid) (p : Profile.t) : bool := true.
(** "Users can update their own profile" *)
Definition profiles_update (uid : option uuid) (p : Profile.t) : bool :=
  uid_is uid (Profile.id p).
(** "Users can insert their own profile" *)
Definition profiles_insert (uid : option uuid) (p : Profile.t) : bool :=
  uid_is uid (Profile.id p).

(** "Public events are viewable by everyone" *)
Definition events_select (uid : option uuid) (e : Event.t) : bool :=
  Bool.eqb (Event.is_public e) true || uid_is uid (Event.organizer_id e).
(** "Authenticated users can create events" *)
Definition events_insert (uid : option uuid) (e : Event.t) : bool :=
  uid_is uid (Event.organizer_id e).
(** "Organizers can update their own events" *)
Definition events_update (uid : option uuid) (e : Event.t) : bool :=
  uid_is uid (Event.organizer_id e).
(** "Organizers can delete their own events" *)
Definition events_delete (uid : option uuid) (e : Event.t) : bool :=
  uid_is uid (Event.organizer_id e).

(** "RSVPs are viewable by everyone" *)
Definition rsvps_select (uid : option uuid) (r : Rsvp.t) : bool := true.
(** "Authenticated users can create RSVPs" *)
Definition rsvps_insert (uid : option uuid) (r : Rsvp.t) : bool :=
  uid_is uid (Rsvp.user_id r).
(** "Users can update their own RSVPs" *)
Definition rsvps_update (uid : option uuid) (r : Rsvp.t) : bool :=
  uid_is uid (Rsvp.user_id r).
(** "Users can delete their own RSVPs" *)
Definition rsvps_delete (uid : option uuid) (r : Rsvp.t) : bool :=
  uid_is uid (Rsvp.user_id r).

(** "Reviews are viewable by everyone" *)
Definition reviews_select (uid : option uuid) (r : Review.t) : bool := true.
(** "Authenticated users can create reviews" *)
Definition reviews_insert (uid : option uuid) (r : Review.t) : bool :=
  uid_is uid (Review.user_id r).
(** "Users can update their own reviews" *)
Definition reviews_update (uid : option uuid) (r : Review.t) : bool :=
  uid_is uid (Review.user_id r).
(** "Users can delete their own reviews" *)
Definition reviews_delete (uid : option uuid) (r : Review.t) : bool :=
  uid_is uid (Review.user_id r).

(** ** Reads: a [SELECT] returns the rows its policy admits *)

Definition select_profiles (uid : option uuid) (db : t) : list Profile.t :=
  filter (profiles_select uid) (profiles db).
Definition select_events (uid : option uuid) (db : t) : list Event.t :=
  filter (events_select uid) (events db).
Definition select_rsvps (uid : option uuid) (db : t) : list Rsvp.t :=
  filter (rsvps_select uid) (rsvps db).
Definition select_reviews (uid : option uuid) (db : t) : list Review.t :=
  filter (reviews_select uid) (reviews db).

(** [.single()]: exactly one row, or the error of PostgREST. *)
Definition single {A : Type} (rows : list A) : A + error :=
  match rows with
  | [x] => inl x
  | _ => inr no_single_row
  end.

(** ** Constraint checks *)

Definition has_profile (db : t) (u : uuid) : bool :=
  existsb (fun p => Profile.id p =? u) (profiles db).
Definition has_event (db : t) (e : uuid) : bool :=
  existsb (fun x => Event.id x =? e) (events db).

Definition key_eqb (a b : uuid * uuid) : bool :=
  (fst a =? fst b) && (snd a =? snd b).

(** [CONSTRAINT valid_time_range CHECK (end_time > start_time)] *)
Definition valid_time_range (e : Event.t) : bool :=
  Event.start_time e <? Event.end_time e.

(** [CHECK (rating >= 1 AND rating <= 5)] *)
Definition reviews_rating_check (r : Review.t) : bool :=
  (1 <=? Review.rating r) && (Review.rating r <=? 5).

(** ** Writes

    An [INSERT] is checked in PostgreSQL's order: the policy's WITH
    CHECK, the CHECK constraints, the unique indexes (primary key
    first), the foreign keys.  A row that passes is appended.  The
    caller supplies the whole row; [DEFAULT gen_random_uuid()] and
    [DEFAULT now()] are the [id] and the instant the page hands in. *)

Definition insert_event (uid : option uuid) (e : Event.t) (db : t) : t + error :=
  if negb (events_insert uid e) then inr (rls_violation "events")
  else if negb (valid_time_range e) then
    inr (check_violation "events" "valid_time_range")
  else if has_event db (Event.id e) then inr (unique_violation "events_pkey")
  else if negb (has_profile db (Event.organizer_id e)) then
    inr (foreign_key_violation "events" "events_organizer_id_fkey")
  else inl {| profiles := profiles db;
              events := events db ++ [e];
              rsvps := rsvps db;
              reviews := reviews db |}.

Definition insert_rsvp (uid : option uuid) (r : Rsvp.t) (db : t) : t + error :=
  if negb (rsvps_insert uid r) then inr (rls_violation "rsvps")
  else if existsb (fun x => Rsvp.id x =? Rsvp.id r) (rsvps db) then
    inr (unique_violation "rsvps_pkey")
  else if existsb (fun x => key_eqb (Rsvp.key x) (Rsvp.key r)) (rsvps db) then
    inr (unique_violation "rsvps_event_id_user_id_key")
  else if negb (has_event db (Rsvp.event_id r)) then
    inr (foreign_key_violation "rsvps" "rsvps_event_id_fkey")
  else if negb (has_profile db (Rsvp.user_id r)) then
    inr (foreign_key_violation "rsvps" "rsvps_user_id_fkey")
  else inl {| profiles := profiles db;
              events := events db;
              rsvps := rsvps db ++ [r];
              reviews := reviews db |}.

Definition insert_review (uid : option uuid) (r : Review.t) (db : t) : t + error :=
  if negb (reviews_insert uid r) then inr (rls_violation "reviews")
  else if negb (reviews_rating_check r) then
    inr (check_violation "reviews" "reviews_rating_check")
  else if existsb (fun x => Review.id x =? Review.id r) (reviews db) then
    inr (unique_violation "reviews_pkey")
  else if existsb (fun x => key_eqb (Review.key x) (Review.key r)) (reviews db) then
    inr (unique_violation "reviews_event_id_user_id_key")
  else if negb (has_event db (Review.event_id r)) then
    inr (foreign_key_violation "reviews" "reviews_event_id_fkey")
  else if negb (has_profile db (Review.user_id r)) then
    inr (foreign_key_violation "reviews" "reviews_user_id_fkey")
  else inl {| profiles := profiles db;
              events := events db;
              rsvps := rsvps db;
              reviews := reviews db ++ [r] |}.

(** [UPDATE rsvps SET status = s WHERE event_id = e AND user_id = u]:
    the rows the policy admits get the new status, and the trigger
    [update_rsvps_updated_at] stamps them; the others are left as they
    are, without an error. *)
Definition set_status (s : rsvp_status) (now : timestamptz) (r : Rsvp.t) : Rsvp.t :=
  {| Rsvp.id := Rsvp.id r;
     Rsvp.event_id := Rsvp.event_id r;
     Rsvp.user_id := Rsvp.user_id r;
     Rsvp.status := s;
     Rsvp.created_at := Rsvp.created_at r;
     Rsvp.updated_at := now |}.

Definition update_rsvp_status (uid : option uuid) (now : timestamptz)
    (e u : uuid) (s : rsvp_status) (db : t) : t :=
  {| profiles := profiles db;
     events := events db;
     rsvps :=
       map (fun r =>
              if (Rsvp.event_id r =? e) && (Rsvp.user_id r =? u)
                 && rsvps_update uid r
              then set_status s now r else r)
           (rsvps db);
     reviews := reviews db |}.

(** [DELETE FROM events WHERE id = e]: the rows the policy admits go,
    and [ON DELETE CASCADE] takes their RSVPs and reviews. *)
Definition delete_event (uid : option uuid) (e : uuid) (db : t) : t :=
  let gone x := (Event.id x =? e) && events_delete uid x in
  let dead := map Event.id (filter gone (events db)) in
  let orphan i := existsb (Z.eqb i) dead in
  {| profiles := profiles db;
     events := filter (fun x => negb (gone x)) (events db);
     rsvps := filter (fun r => negb (orphan (Rsvp.event_id r))) (rsvps db);
     reviews := filter (fun r => negb (orphan (Review.event_id r))) (reviews db) |}.

(** [handle_new_user], the trigger on [auth.users]: SECURITY DEFINER, so
    no policy applies; the primary key still does. *)
Definition handle_new_user (now : timestamptz) (id : uuid)
    (meta_full_name : option Js.jsstring) (db : t) : t + error :=
  if has_profile db id then inr (unique_violation "profiles_pkey")
  else
    let name := match meta_full_name with
                | Some n => n
                | None => Js.str "Anonymous User"
                end in
    inl {| profiles := profiles db ++
                       [ {| Profile.id := id;
                            Profile.full_name := name;
                            Profile.bio := None;
                            Profile.location := None;
                            Profile.profile_picture := None;
                            Profile.created_at := now;
                            Profile.updated_at := now |} ];
           events := events db;
           rsvps := rsvps db;
           reviews := reviews db |}.

(** Removing an account: [profiles.id REFERENCES auth.users ON DELETE
    CASCADE], then the cascades of the rows that reference the profile
    and of the events it organised. *)
Definition delete_user (u : uuid) (db : t) : t :=
  let dead := map Event.id
                (filter (fun x => Event.organizer_id x =? u) (events db)) in
  let orphan i := existsb (Z.eqb i) dead in
  {| profiles := filter (fun p => negb (Profile.id p =? u)) (profiles db);
     events := filter (fun x => negb (Event.organizer_id x =? u)) (events db);
     rsvps := filter (fun r => negb (Rsvp.user_id r =? u)
                               && negb (orphan (Rsvp.event_id r))) (rsvps db);
     reviews := filter (fun r => negb (Review.user_id r =? u)
                                 && negb (orphan (Review.event_id r)))
                       (reviews db) |}.

(** ** Table constraints as predicates on a state *)

Definition events_valid (db : t) : Prop :=
  Forall (fun e => Event.start_time e < Event.end_time e) (events db).
Definition rsvps_unique (db : t) : Prop :=
  NoDup (map Rsvp.key (rsvps db)).
Definition reviews_unique (db : t) : Prop :=
  NoDup (map Review.key (reviews db)).

(** The statements the pages and the triggers issue, for any caller and
    any arguments. *)
Inductive step : t -> t -> Prop :=
| step_signup now id meta db db' :
    handle_new_user now id meta db = inl db' -> step db db'
| step_delete_user u db : step db (delete_user u db)
| step_insert_event uid e db db' :
    insert_event uid e db = inl db' -> step db db'
| step_delete_event uid e db : step db (delete_event uid e db)
| step_insert_rsvp uid r db db' :
    insert_rsvp uid r db = inl db' -> step db db'
| step_update_rsvp uid now e u s db :
    step db (update_rsvp_status uid now e u s db)
| step_insert_review uid r db db' :
    insert_review uid r db = inl db' -> step db db'.

Inductive reachable : t -> Prop :=
| reachable_empty : reachable empty
| reachable_step db db' : reachable db -> step db db' -> reachable db'.

End Db.

(* ===================================================================== *)
(** * Validation schemas *)
(* ===================================================================== *)

Module Zod.

Inductive code := too_small | too_big.

(** An issue of a [ZodError]: [message] is the text given in the schema,
    [None] when the library's default text applies. *)
Record issue := { issue_code : code; path : string; message : option string }.

(** [z.string().trim()]: the checks after it see the trimmed string. *)
Definition string_min_max (field : string) (lo : Z) (lo_msg : option string)
    (hi : Z) (s : Js.jsstring) : list issue :=
  (if Js.length s <? lo then [ {| issue_code := too_small; path := field; message := lo_msg |} ] else [])
  ++ (if hi <? Js.length s then [ {| issue_code := too_big; path := field; message := None |} ] else []).

(** [z.number().min(lo).max(hi)] *)
Definition number_min_max (field : string) (lo hi : Z) (n : Z) : list issue :=
  (if n <? lo then [ {| issue_code := too_small; path := field; message := None |} ] else [])
  ++ (if hi <? n then [ {| issue_code := too_big; path := field; message := None |} ] else []).

(** [z.string().min(1, msg)] on the value of a [datetime-local] input,
    which is empty ([None]) or a date and time. *)
Definition required_time (field : string) (msg : string) (v : option Db.timestamptz)
  : list issue :=
  match v with
  | None => [ {| issue_code := too_small; path := field; message := Some msg |} ]
  | Some _ => []
  end.

End Zod.

(* ===================================================================== *)
(** * What a handler does besides writing: toasts and navigation *)
(* ===================================================================== *)

Inductive message :=
| text (s : string)
| zod_message (i : Zod.issue).

Inductive effect :=
| toast_error (m : message)
| toast_success (s : string)
| navigate (to : string).

(** [toast.error(error.errors[0].message)] *)
Definition toast_first_issue (issues : list Zod.issue) : list effect :=
  map (fun i => toast_error (zod_message i)) (firstn 1 issues).

(* ===================================================================== *)
(** * The page that creates an event *)
(* ===================================================================== *)

Module CreateEvent.

(** The fields read from the form.  A [datetime-local] input holds the
    empty string ([None]) or a date and time, taken here as the instant
    it denotes. *)
Record form := {
  title : Js.jsstring;
  description : Js.jsstring;
  location : Js.jsstring;
  start_time : option Db.timestamptz;
  end_time : option Db.timestamptz }.

Record validated := {
  v_title : Js.jsstring;
  v_description : Js.jsstring;
  v_location : Js.jsstring;
  v_start_time : Db.timestamptz;
  v_end_time : Db.timestamptz }.

Definition eventSchema_issues (d : form) : list Zod.issue :=
  Zod.string_min_max "title" 3 (Some "Title must be at least 3 characters"%string) 200
    (Js.trim (title d))
  ++ Zod.string_min_max "description" 10
       (Some "Description must be at least 10 characters"%string) 2000
       (Js.trim (description d))
  ++ Zod.string_min_max "location" 3
       (Some "Location must be at least 3 characters"%string) 500
       (Js.trim (location d))
  ++ Zod.required_time "start_time" "Start time is required" (start_time d)
  ++ Zod.required_time "end_time" "End time is required" (end_time d).

(** [eventSchema.parse(data)]: the validated object, or the issues. *)
Definition eventSchema_parse (d : form) : validated + list Zod.issue :=
  match eventSchema_issues d, start_time d, end_time d with
  | [], Some s, Some e =>
      inl {| v_title := Js.trim (title d);
             v_description := Js.trim (description d);
             v_location := Js.trim (location d);
             v_start_time := s;
             v_end_time := e |}
  | issues, _, _ => inr issues
  end.

Definition handleSubmit (user : option Db.uuid) (isPublic : bool)
    (now : Db.timestamptz) (newid : Db.uuid) (data : form) (db : Db.t)
  : Db.t * list effect :=
  match user with
  | None => (db, [])
  | Some u =>
      match eventSchema_parse data with
      | inr issues => (db, toast_first_issue issues)
      | inl v =>
          if v_end_time v <=? v_start_time v then
            (db, [toast_error (text "End time must be after start time")])
          else
            match
              Db.insert_event user
                {| Db.Event.id := newid;
                   Db.Event.title := v_title v;
                   Db.Event.description := v_description v;
                   Db.Event.organizer_id := u;
                   Db.Event.location := v_location v;
                   Db.Event.start_time := v_start_time v;
                   Db.Event.end_time := v_end_time v;
                   Db.Event.is_public := isPublic;
                   Db.Event.created_at := now;
                   Db.Event.updated_at := now |} db
            with
            | inr _ => (db, [toast_error (text "Failed to create event")])
            | inl db' =>
                (db', [toast_success "Event created successfully!"; navigate "/"])
            end
      end
  end.

End CreateEvent.

(* ===================================================================== *)
(** * The page of one event *)
(* ===================================================================== *)

Module EventDetails.

(** The object the select of [fetchEvent] returns: the event row with
    its embedded organizer, RSVPs and reviews.  (The reviewer's name
    embedded in each review is only rendered and is left out.) *)
Record details := {
  row : Db.Event.t;
  organizer : option Js.jsstring;
  rsvps : list Db.Rsvp.t;
  reviews : list Db.Review.t }.

(** The state of the component. *)
Record page := {
  event : option details;
  userRsvp : option Db.rsvp_status;
  rating : Z;
  comment : Js.jsstring }.

Definition initial : page :=
  {| event := None; userRsvp := None; rating := 5; comment := [] |}.

(** Embedded resources are read under their own select policies. *)
Definition embed (uid : option Db.uuid) (db : Db.t) (e : Db.Event.t) : details :=
  {| row := e;
     organizer :=
       option_map Db.Profile.full_name
         (find (fun p => Db.Profile.id p =? Db.Event.organizer_id e)
               (Db.select_profiles uid db));
     rsvps :=
       filter (fun r => Db.Rsvp.event_id r =? Db.Event.id e)
              (Db.select_rsvps uid db);
     reviews :=
       filter (fun r => Db.Review.event_id r =? Db.Event.id e)
              (Db.select_reviews uid db) |}.

(** The query of [fetchEvent]: [.eq("id", id).single()]. *)
Definition select_event (uid : option Db.uuid) (id : Db.uuid) (db : Db.t)
  : details + Db.error :=
  match Db.single (filter (fun e => Db.Event.id e =? id) (Db.select_events uid db)) with
  | inl e => inl (embed uid db e)
  | inr err => inr err
  end.

Definition fetchEvent (user : option Db.uuid) (id : Db.uuid) (db : Db.t) (pg : page)
  : page * list effect :=
  match select_event user id db with
  | inr _ => (pg, [toast_error (text "Failed to load event"); navigate "/"])
  | inl data =>
      ({| event := Some data;
          userRsvp :=
            match user with
            | Some u =>
                option_map Db.Rsvp.status
                  (find (fun r => Db.Rsvp.user_id r =? u) (rsvps data))
            | None => userRsvp pg
            end;
          rating := rating pg;
          comment := comment pg |}, [])
  end.

Definition status_name (s : Db.rsvp_status) : string :=
  match s with
  | Db.going => "going"
  | Db.maybe => "maybe"
  | Db.not_going => "not_going"
  end.

Definition handleRsvp (user : option Db.uuid) (id : Db.uuid)
    (now : Db.timestamptz) (newid : Db.uuid) (status : Db.rsvp_status)
    (db : Db.t) (pg : page) : Db.t * page * list effect :=
  match user with
  | None => (db, pg, [navigate "/auth"])
  | Some u =>
      let written :=
        match userRsvp pg with
        | Some _ => inl (Db.update_rsvp_status user now id u status db)
        | None =>
            Db.insert_rsvp user
              {| Db.Rsvp.id := newid;
                 Db.Rsvp.event_id := id;
                 Db.Rsvp.user_id := u;
                 Db.Rsvp.status := status;
                 Db.Rsvp.created_at := now;
                 Db.Rsvp.updated_at := now |} db
        end in
      match written with
      | inr _ => (db, pg, [toast_error (text "Failed to update RSVP")])
      | inl db' =>
          let pg1 := {| event := event pg;
                        userRsvp := Some status;
                        rating := rating pg;
                        comment := comment pg |} in
          let '(pg2, effs) := fetchEvent user id db' pg1 in
          (db', pg2,
           toast_success ("RSVP updated to: " ++ status_name status)%string :: effs)
      end
  end.

Definition handleDelete (user : option Db.uuid) (id : Db.uuid) (db : Db.t)
  : Db.t * list effect :=
  (Db.delete_event user id db,
   [toast_success "Event deleted successfully"; navigate "/"]).

(** [reviewSchema]: rating first, then the trimmed comment. *)
Definition reviewSchema_issues (rating : Z) (comment : Js.jsstring) : list Zod.issue :=
  Zod.number_min_max "rating" 1 5 rating
  ++ Zod.string_min_max "comment" 10
       (Some "Review must be at least 10 characters"%string) 1000 (Js.trim comment).

Definition reviewSchema_parse (rating : Z) (comment : Js.jsstring)
  : (Z * Js.jsstring) + list Zod.issue :=
  match reviewSchema_issues rating comment with
  | [] => inl (rating, Js.trim comment)
  | issues => inr issues
  end.

Definition handleSubmitReview (user : option Db.uuid) (id : Db.uuid)
    (now : Db.timestamptz) (newid : Db.uuid) (db : Db.t) (pg : page)
  : Db.t * page * list effect :=
  match user with
  | None => (db, pg, [navigate "/auth"])
  | Some u =>
      match reviewSchema_parse (rating pg) (comment pg) with
      | inr issues => (db, pg, toast_first_issue issues)
      | inl (v_rating, v_comment) =>
          match
            Db.insert_review user
              {| Db.Review.id := newid;
                 Db.Review.event_id := id;
                 Db.Review.user_id := u;
                 Db.Review.rating := v_rating;
                 Db.Review.comment := v_comment;
                 Db.Review.created_at := now;
                 Db.Review.updated_at := now |} db
          with
          | inr err =>
              if Js.includes (Js.str (Db.message err)) (Js.str "duplicate") then
                (db, pg, [toast_error (text "You've already reviewed this event")])
              else (db, pg, [toast_error (text "Failed to submit review")])
          | inl db' =>
              let pg1 := {| event := event pg;
                            userRsvp := userRsvp pg;
                            rating := 5;
                            comment := [] |} in
              let '(pg2, effs) := fetchEvent user id db' pg1 in
              (db', pg2, toast_success "Review submitted successfully!" :: effs)
          end
      end
  end.

(** ** What the render computes from the loaded event *)

Definition isOrganizer (user : option Db.uuid) (d : details) : bool :=
  Db.uid_is user (Db.Event.organizer_id (row d)).

(** [new Date(event.end_time) < new Date()] *)
Definition hasEnded (now : Db.timestamptz) (d : details) : bool :=
  Db.Event.end_time (row d) <? now.

Definition sum_ratings (rs : list Db.Review.t) : Z :=
  fold_left (fun sum r => sum + Db.Review.rating r) rs 0.

Definition avgRating (d : details) : string :=
  if 0 <? Z.of_nat (List.length (reviews d)) then
    Js.toFixed1 (Js.fdiv (sum_ratings (reviews d)) (Z.of_nat (List.length (reviews d))))
  else "N/A".

(** The RSVP buttons are rendered under [!isOrganizer && !hasEnded]. *)
Definition showRsvpButtons (user : option Db.uuid) (now : Db.timestamptz)
    (d : details) : bool :=
  negb (isOrganizer user d) && negb (hasEnded now d).

(** The review form is rendered under
    [user && hasEnded && !event.reviews.some(r => r.user_id === user.id)]. *)
Definition showReviewForm (user : option Db.uuid) (now : Db.timestamptz)
    (d : details) : bool :=
  match user with
  | None => false
  | Some u =>
      hasEnded now d
      && negb (existsb (fun r => Db.Review.user_id r =? u) (reviews d))
  end.

End EventDetails.

(* ===================================================================== *)
(** * The landing page: the list of public upcoming events *)
(* ===================================================================== *)

Module Index.

(** One element of the list: the event row with its embedded organizer
    and RSVPs. *)
Record item := {
  row : Db.Event.t;
  organizer : option Js.jsstring;
  rsvps : list Db.Rsvp.t }.

Definition embed (uid : option Db.uuid) (db : Db.t) (e : Db.Event.t) : item :=
  {| row := e;
     organizer :=
       option_map Db.Profile.full_name
         (find (fun p => Db.Profile.id p =? Db.Event.organizer_id e)
               (Db.select_profiles uid db));
     rsvps :=
       filter (fun r => Db.Rsvp.event_id r =? Db.Event.id e)
              (Db.select_rsvps uid db) |}.

(** [.order("start_time", { ascending: true })].  SQL leaves the order
    of equal keys open; the insertion sort keeps the table's. *)
Fixpoint insert_by_start (e : Db.Event.t) (l : list Db.Event.t) : list Db.Event.t :=
  match l with
  | [] => [e]
  | x :: l' =>
      if Db.Event.start_time e <=? Db.Event.start_time x then e :: l
      else x :: insert_by_start e l'
  end.

Definition order_by_start (l : list Db.Event.t) : list Db.Event.t :=
  fold_right insert_by_start [] l.

(** The rows of the query of [fetchEvents]:
    [.eq("is_public", true).gte("start_time", now).order("start_time")]. *)
Definition upcoming_rows (uid : option Db.uuid) (now : Db.timestamptz) (db : Db.t)
  : list Db.Event.t :=
  order_by_start
    (filter (fun e => now <=? Db.Event.start_time e)
       (filter (fun e => Bool.eqb (Db.Event.is_public e) true)
          (Db.select_events uid db))).

(** The [events] state after [fetchEvents]. *)
Definition fetchEvents (uid : option Db.uuid) (now : Db.timestamptz) (db : Db.t)
  : list item :=
  map (embed uid db) (upcoming_rows uid now db).

Section Search.

(** [String.prototype.toLowerCase], whose Unicode tables are not part
    of the repository. *)
Variable toLowerCase : Js.jsstring -> Js.jsstring.

Definition matches (searchQuery : Js.jsstring) (e : Db.Event.t) : bool :=
  Js.includes (toLowerCase (Db.Event.title e)) (toLowerCase searchQuery)
  || Js.includes (toLowerCase (Db.Event.description e)) (toLowerCase searchQuery)
  || Js.includes (toLowerCase (Db.Event.location e)) (toLowerCase searchQuery).

Definition filteredEvents (searchQuery : Js.jsstring) (events : list item)
  : list item :=
  filter (fun it => matches searchQuery (row it)) events.

End Search.

(** A lower-casing of the ASCII letters, to run the search on examples. *)
Definition ascii_toLowerCase (s : Js.jsstring) : Js.jsstring :=
  map (fun c => if (65 <=? c) && (c <=? 90) then c + 32 else c)%N s.

End Index.

(* ===================================================================== *)
(** * The trend series *)
(* ===================================================================== *)

Module Trends.

(** A calendar date as the number of its day, day 0 being 1970-01-01. *)
Definition date := Z.

(** The day number of the civil date [y]-[m]-[d] (proleptic Gregorian
    calendar), to write the dates of examples. *)
Definition ymd (y m d : Z) : date :=
  let y' := if m <=? 2 then y - 1 else y in
  let era := y' / 400 in
  let yoe := y' - era * 400 in
  let doy := (153 * (if 2 <? m then m - 3 else m + 9) + 2) / 5 + d - 1 in
  let doe := yoe * 365 + yoe / 4 - yoe / 100 + doy in
  era * 146097 + doe - 719468.

Definition ms_per_day : Z := 86400000.

(** The day an instant falls in. *)
Definition day_of (t : Db.timestamptz) : date := t / ms_per_day.

Definition count_on (day : date) (stamps : list Db.timestamptz) : Z :=
  Z.of_nat (List.length (filter (fun t => day_of t =? day) stamps)).

(** The [n] days from [start] on. *)
Fixpoint days_from (start : date) (n : nat) : list date :=
  match n with
  | O => []
  | S n' => start :: days_from (start + 1) n'
  end.

(** Modelled from the spec: [trends(start_date, end_date)] has no source
    file (the README names the endpoint only).  Following section 4.4:
    the entities whose relevant timestamp falls within
    [[start_date, end_date]] are grouped by day, the buckets are sorted
    ascending by date, and a day without activity has a bucket with
    count 0.  [stamps] are the relevant timestamps of the entities the
    caller may select. *)
Definition trends (start_date end_date : date) (stamps : list Db.timestamptz)
  : list (date * Z) :=
  map (fun day => (day, count_on day stamps))
      (days_from start_date (Z.to_nat (end_date - start_date + 1))).

End Trends.

(** Order is kept: [l1] is [l2] with some elements left out. *)
Inductive subseq {A : Type} : list A -> list A -> Prop :=
| subseq_nil : subseq [] []
| subseq_keep x l1 l2 : subseq l1 l2 -> subseq (x :: l1) (x :: l2)
| subseq_drop x l1 l2 : subseq l1 l2 -> subseq l1 (x :: l2).

(* ===================================================================== *)
(** * Predicates and example states used by the theorems *)
(* ===================================================================== *)

(** The primary key of [events]. *)
Definition events_pk (db : Db.t) : Prop := NoDup (map Db.Event.id (Db.events db)).

(** The four constraints the claims rest on. *)
Record constraints (db : Db.t) : Prop := {
  c_events_valid : Db.events_valid db;
  c_events_pk : events_pk db;
  c_rsvps_unique : Db.rsvps_unique db;
  c_reviews_unique : Db.reviews_unique db }.

(** ** Example states *)

Definition c3_db : Db.t :=
  {| Db.profiles :=
       [ {| Db.Profile.id := 1; Db.Profile.full_name := Js.str "Ada";
            Db.Profile.bio := None; Db.Profile.location := None;
            Db.Profile.profile_picture := None;
            Db.Profile.created_at := 0; Db.Profile.updated_at := 0 |} ];
     Db.events := []; Db.rsvps := []; Db.reviews := [] |}.

Definition c3_form (title : string) : CreateEvent.form :=
  {| CreateEvent.title := Js.str title;
     CreateEvent.description := Js.str "An evening of chamber music";
     CreateEvent.location := Js.str "Town hall";
     CreateEvent.start_time := Some 2000;
     CreateEvent.end_time := Some 1000 |}.

Definition profile_of (id : Db.uuid) (name : string) : Db.Profile.t :=
  {| Db.Profile.id := id; Db.Profile.full_name := Js.str name;
     Db.Profile.bio := None; Db.Profile.location := None;
     Db.Profile.profile_picture := None;
     Db.Profile.created_at := 0; Db.Profile.updated_at := 0 |}.

(** An event of organizer 1 that starts at 100 and ends at 200. *)
Definition event_of (id : Db.uuid) (is_public : bool) : Db.Event.t :=
  {| Db.Event.id := id;
     Db.Event.title := Js.str "Summer Music Festival";
     Db.Event.description := Js.str "Three stages in the park";
     Db.Event.organizer_id := 1;
     Db.Event.location := Js.str "City park";
     Db.Event.start_time := 100;
     Db.Event.end_time := 200;
     Db.Event.is_public := is_public;
     Db.Event.created_at := 0;
     Db.Event.updated_at := 0 |}.

(** Two accounts and one public event, number 10, of the first. *)
Definition db_public : Db.t :=
  {| Db.profiles := [profile_of 1 "Ada"; profile_of 2 "Grace"];
     Db.events := [event_of 10 true];
     Db.rsvps := [];
     Db.reviews := [] |}.

Definition review_of (id event user : Db.uuid) (rating : Z) : Db.Review.t :=
  {| Db.Review.id := id; Db.Review.event_id := event; Db.Review.user_id := user;
     Db.Review.rating := rating;
     Db.Review.comment := Js.str "A wonderful evening";
     Db.Review.created_at := 250; Db.Review.updated_at := 250 |}.

(** [db_public] after account 2 has reviewed event 10. *)
Definition db_reviewed : Db.t :=
  {| Db.profiles := Db.profiles db_public;
     Db.events := Db.events db_public;
     Db.rsvps := [];
     Db.reviews := [review_of 50 10 2 4] |}.

Definition page_with (rating : Z) (comment : string) : EventDetails.page :=
  {| EventDetails.event := None;
     EventDetails.userRsvp := None;
     EventDetails.rating := rating;
     EventDetails.comment := Js.str comment |}.

(** ** The row and the state a stored review leaves *)

Definition submitted_review (u id : Db.uuid) (now : Db.timestamptz) (newid : Db.uuid)
    (pg : EventDetails.page) : Db.Review.t :=
  {| Db.Review.id := newid;
     Db.Review.event_id := id;
     Db.Review.user_id := u;
     Db.Review.rating := EventDetails.rating pg;
     Db.Review.comment := Js.trim (EventDetails.comment pg);
     Db.Review.created_at := now;
     Db.Review.updated_at := now |}.

Definition add_review (r : Db.Review.t) (db : Db.t) : Db.t :=
  {| Db.profiles := Db.profiles db;
     Db.events := Db.events db;
     Db.rsvps := Db.rsvps db;
     Db.reviews := Db.reviews db ++ [r] |}.

(** The page state [handleSubmitReview] hands to [fetchEvent] after a
    stored review: comment and rating are reset. *)
Definition reset_form (pg : EventDetails.page) : EventDetails.page :=
  {| EventDetails.event := EventDetails.event pg;
     EventDetails.userRsvp := EventDetails.userRsvp pg;
     EventDetails.rating := 5;
     EventDetails.comment := [] |}.

(** The input passes [reviewSchema]. *)
Definition review_valid (pg : EventDetails.page) : Prop :=
  1 <= EventDetails.rating pg <= 5
  /\ 10 <= Js.length (Js.trim (EventDetails.comment pg)) <= 1000.

Definition rsvp_of (id event user : Db.uuid) (s : Db.rsvp_status) : Db.Rsvp.t :=
  {| Db.Rsvp.id := id; Db.Rsvp.event_id := event; Db.Rsvp.user_id := user;
     Db.Rsvp.status := s; Db.Rsvp.created_at := 50; Db.Rsvp.updated_at := 50 |}.

(** Three accounts; event 20 of account 1 is private, account 3 has
    answered it and reviewed it. *)
Definition db_private : Db.t :=
  {| Db.profiles := [profile_of 1 "Ada"; profile_of 2 "Grace"; profile_of 3 "Edsger"];
     Db.events := [event_of 20 false];
     Db.rsvps := [rsvp_of 30 20 3 Db.going];
     Db.reviews := [review_of 40 20 3 5] |}.

(** What [fetchEvent] does when the query returns no single row. *)
Definition load_failed : list effect :=
  [toast_error (text "Failed to load event"); navigate "/"].

(** Ascending by [start_time]. *)
Definition by_start (a b : Db.Event.t) : Prop :=
  Db.Event.start_time a <= Db.Event.start_time b.

(** ** The page and the table agree on the caller's RSVP *)

(** The row of the pair, as a test on rows. *)
Definition rsvp_of_pair (id u : Db.uuid) (r : Db.Rsvp.t) : bool :=
  Db.key_eqb (Db.Rsvp.key r) (id, u).

(** [userRsvp] holds the status of the caller's row for the event, or
    nothing when there is no such row: the state [fetchEvent] leaves. *)
Definition in_sync (u id : Db.uuid) (db : Db.t) (pg : EventDetails.page) : Prop :=
  EventDetails.userRsvp pg
  = option_map Db.Rsvp.status (find (rsvp_of_pair id u) (Db.rsvps db)).

(** Following the spec's words: "if a row for (event_id, user_id) exists,
    perform an update of status; else insert". *)
Definition upsert_rsvp (u id : Db.uuid) (now : Db.timestamptz) (newid : Db.uuid)
    (s : Db.rsvp_status) (rows : list Db.Rsvp.t) : list Db.Rsvp.t :=
  if existsb (rsvp_of_pair id u) rows then
    map (fun r => if rsvp_of_pair id u r then Db.set_status s now r else r) rows
  else
    rows ++ [ {| Db.Rsvp.id := newid; Db.Rsvp.event_id := id; Db.Rsvp.user_id := u;
                 Db.Rsvp.status := s;
                 Db.Rsvp.created_at := now; Db.Rsvp.updated_at := now |} ].

(** [db_public] after account 2 has answered event 10 with "maybe". *)
Definition db_answered : Db.t :=
  {| Db.profiles := Db.profiles db_public;
     Db.events := Db.events db_public;
     Db.rsvps := [rsvp_of 30 10 2 Db.maybe];
     Db.reviews := [] |}.

Definition page_answered : EventDetails.page :=
  fst (EventDetails.fetchEvent (Some 2) 10 db_answered EventDetails.initial).

(** Two rows that differ at most in [updated_at]. *)
Definition same_but_updated_at (r r' : Db.Rsvp.t) : Prop :=
  Db.Rsvp.id r = Db.Rsvp.id r'
  /\ Db.Rsvp.event_id r = Db.Rsvp.event_id r'
  /\ Db.Rsvp.user_id r = Db.Rsvp.user_id r'
  /\ Db.Rsvp.status r = Db.Rsvp.status r'
  /\ Db.Rsvp.created_at r = Db.Rsvp.created_at r'.

(** The toast of a written RSVP. *)
Definition rsvp_toast (s : Db.rsvp_status) : effect :=
  toast_success ("RSVP updated to: " ++ EventDetails.status_name s).

(** The page of account 2 on event 10, loaded while [db_public] was the
    state: before the account had answered. *)
Definition page_unaware : EventDetails.page :=
  fst (EventDetails.fetchEvent (Some 2) 10 db_public EventDetails.initial).

(** [t] occurs in [s] as a contiguous run of code units. *)
Definition occurs_in (t s : Js.jsstring) : Prop :=
  exists before after, s = before ++ t ++ after.

(** The event matches the search text: the lower-cased text occurs in
    the lower-cased title, description or location. *)
Definition matches_text (toLowerCase : Js.jsstring -> Js.jsstring)
    (searchQuery : Js.jsstring) (e : Db.Event.t) : Prop :=
  occurs_in (toLowerCase searchQuery) (toLowerCase (Db.Event.title e))
  \/ occurs_in (toLowerCase searchQuery) (toLowerCase (Db.Event.description e))
  \/ occurs_in (toLowerCase searchQuery) (toLowerCase (Db.Event.location e)).

(** Public, and not started before [now]. *)
Definition public_upcoming (now : Db.timestamptz) (e : Db.Event.t) : bool :=
  Db.Event.is_public e && (now <=? Db.Event.start_time e).

(** ** Binary64 division against the specification of the standard library *)

(** The integer [n] as a binary64 value. *)
Definition binary64_of_Z (n : Z) : SpecFloat.spec_float :=
  SpecFloat.binary_normalize 53 1024 n 0 false.

(** [Js.fdiv a b] is what [SFdiv] gives on binary64. *)
Definition fdiv_agrees (a b : Z) : bool :=
  match SpecFloat.SFdiv 53 1024 (binary64_of_Z a) (binary64_of_Z b) with
  | SpecFloat.S754_finite false m e =>
      (Js.mant (Js.fdiv a b) =? Zpos m) && (Js.expo (Js.fdiv a b) =? e)
  | _ => false
  end.

(** The sums [n <= s <= 5 * n] a list of [n] ratings can have. *)
Definition rating_sums (n : Z) : list Z :=
  map (fun i => n + Z.of_nat i) (seq 0 (Z.to_nat (4 * n + 1))).

Definition details_of (rs : list Db.Review.t) : EventDetails.details :=
  {| EventDetails.row := event_of 10 true;
     EventDetails.organizer := None;
     EventDetails.rsvps := [];
     EventDetails.reviews := rs |}.

(** The sum of the ratings, for the arithmetic mean [total rs / length rs]. *)
Definition total (rs : list Db.Review.t) : Z :=
  fold_right Z.add 0 (map Db.Review.rating rs).

(** [tenths / 10] is a multiple of one tenth nearest to the mean of [rs]:
    it is off by at most one twentieth. *)
Definition nearest_tenth_of_mean (rs : list Db.Review.t) (tenths : Z) : Prop :=
  Z.abs (20 * total rs - 2 * tenths * Z.of_nat (List.length rs))
  <= Z.of_nat (List.length rs).

(** The decimal numeral with one digit after the point of [tenths / 10]. *)
Definition one_decimal (tenths : Z) : string :=
  (Js.digits (tenths / 10) ++ "." ++ Js.digits (tenths mod 10))%string.

(** Three events of account 1: a public one that starts at 300, a public
    one that starts at 100, a private one that starts at 200. *)
Definition event_at (id : Db.uuid) (title : string) (start : Db.timestamptz)
    (is_public : bool) : Db.Event.t :=
  {| Db.Event.id := id;
     Db.Event.title := Js.str title;
     Db.Event.description := Js.str "Bring a friend";
     Db.Event.organizer_id := 1;
     Db.Event.location := Js.str "City park";
     Db.Event.start_time := start;
     Db.Event.end_time := start + 50;
     Db.Event.is_public := is_public;
     Db.Event.created_at := 0;
     Db.Event.updated_at := 0 |}.

Definition db_listing : Db.t :=
  {| Db.profiles := [profile_of 1 "Ada"];
     Db.events := [event_at 11 "Jazz Night" 300 true;
                   event_at 12 "Morning Run" 100 true;
                   event_at 13 "Board Meeting" 200 false];
     Db.rsvps := [];
     Db.reviews := [] |}.

(** ** Referential integrity and the remaining column constraints *)

(** [REFERENCES public.profiles(id)] and [REFERENCES public.events(id)]:
    every referencing row finds its referenced row. *)
Record references_hold (db : Db.t) : Prop := {
  r_event_organizer :
    forall e, In e (Db.events db) ->
              Db.has_profile db (Db.Event.organizer_id e) = true;
  r_rsvp_event :
    forall r, In r (Db.rsvps db) -> Db.has_event db (Db.Rsvp.event_id r) = true;
  r_rsvp_user :
    forall r, In r (Db.rsvps db) -> Db.has_profile db (Db.Rsvp.user_id r) = true;
  r_review_event :
    forall r, In r (Db.reviews db) -> Db.has_event db (Db.Review.event_id r) = true;
  r_review_user :
    forall r, In r (Db.reviews db) -> Db.has_profile db (Db.Review.user_id r) = true }.

(** The primary keys of the other three tables, and the CHECK on
    [rating]. *)
Record columns_hold (db : Db.t) : Prop := {
  k_profiles : NoDup (map Db.Profile.id (Db.profiles db));
  k_rsvps : NoDup (map Db.Rsvp.id (Db.rsvps db));
  k_reviews : NoDup (map Db.Review.id (Db.reviews db));
  k_rating : forall r, In r (Db.reviews db) -> 1 <= Db.Review.rating r <= 5 }.

(* ===================================================================== *)
(** * The page of the caller's profile *)
(* ===================================================================== *)

Module ProfilePage.

(** The three fields read from the form. *)
Record form := {
  full_name : Js.jsstring;
  bio : Js.jsstring;
  location : Js.jsstring }.

(** [formData.get(name) as string || null]: the empty string is the one
    falsy string. *)
Definition or_null (s : Js.jsstring) : option Js.jsstring :=
  match s with
  | [] => None
  | _ :: _ => Some s
  end.

(** [.max(hi, msg)] on a string. *)
Definition string_max (field : string) (hi : Z) (msg : string) (s : Js.jsstring)
  : list Zod.issue :=
  if hi <? Js.length s then
    [ {| Zod.issue_code := Zod.too_big; Zod.path := field; Zod.message := Some msg |} ]
  else [].

(** [z.string().trim().max(hi, msg).optional()] on a string or [null]:
    [optional] lets [undefined] through, not [null], which the string
    schema refuses with its type issue. *)
Definition optional_string (field : string) (hi : Z) (msg : string)
    (v : option Js.jsstring) : list message :=
  match v with
  | None => [text "Expected string, received null"]
  | Some s => map zod_message (string_max field hi msg (Js.trim s))
  end.

Definition profileSchema_issues (d : form) : list message :=
  map zod_message
    (Zod.string_min_max "full_name" 2
       (Some "Name must be at least 2 characters"%string) 100
       (Js.trim (full_name d)))
  ++ optional_string "bio" 500 "Bio must be less than 500 characters"
       (or_null (bio d))
  ++ optional_string "location" 200 "Location must be less than 200 characters"
       (or_null (location d)).

Record validated := {
  v_full_name : Js.jsstring;
  v_bio : Js.jsstring;
  v_location : Js.jsstring }.

(** [profileSchema.parse(data)]; without issues [bio] and [location] were
    strings. *)
Definition profileSchema_parse (d : form) : validated + list message :=
  match profileSchema_issues d with
  | [] => inl {| v_full_name := Js.trim (full_name d);
                 v_bio := Js.trim (bio d);
                 v_location := Js.trim (location d) |}
  | issues => inr issues
  end.

(** The row after [UPDATE profiles SET full_name, bio, location]; the
    trigger [update_profiles_updated_at] stamps it. *)
Definition set_fields (v : validated) (now : Db.timestamptz) (p : Db.Profile.t)
  : Db.Profile.t :=
  {| Db.Profile.id := Db.Profile.id p;
     Db.Profile.full_name := v_full_name v;
     Db.Profile.bio := Some (v_bio v);
     Db.Profile.location := Some (v_location v);
     Db.Profile.profile_picture := Db.Profile.profile_picture p;
     Db.Profile.created_at := Db.Profile.created_at p;
     Db.Profile.updated_at := now |}.

(** [.update(validated).eq("id", id)] under the policy "Users can update
    their own profile". *)
Definition update_profile (uid : option Db.uuid) (now : Db.timestamptz)
    (id : Db.uuid) (v : validated) (db : Db.t) : Db.t :=
  {| Db.profiles :=
       map (fun p => if (Db.Profile.id p =? id) && Db.profiles_update uid p
                     then set_fields v now p else p)
           (Db.profiles db);
     Db.events := Db.events db;
     Db.rsvps := Db.rsvps db;
     Db.reviews := Db.reviews db |}.

(** The query of [fetchProfile]: [.eq("id", user?.id).single()]. *)
Definition select_profile (user : option Db.uuid) (db : Db.t)
  : Db.Profile.t + Db.error :=
  match user with
  | None => inr Db.no_single_row
  | Some u =>
      Db.single (filter (fun p => Db.Profile.id p =? u) (Db.select_profiles user db))
  end.

(** The [profile] state and the effects of [fetchProfile]. *)
Definition fetchProfile (user : option Db.uuid) (db : Db.t)
    (profile : option Db.Profile.t) : option Db.Profile.t * list effect :=
  match select_profile user db with
  | inl data => (Some data, [])
  | inr _ => (profile, [toast_error (text "Failed to load profile")])
  end.

(** Without a user the filter [id = undefined] is no uuid and the
    statement fails. *)
Definition handleSubmit (user : option Db.uuid) (now : Db.timestamptz)
    (data : form) (db : Db.t) (profile : option Db.Profile.t)
  : Db.t * option Db.Profile.t * list effect :=
  match profileSchema_parse data with
  | inr issues => (db, profile, map toast_error (firstn 1 issues))
  | inl v =>
      match user with
      | None => (db, profile, [toast_error (text "Failed to update profile")])
      | Some u =>
          let db' := update_profile user now u v db in
          let '(profile', effs) := fetchProfile user db' profile in
          (db', profile', toast_success "Profile updated successfully!" :: effs)
      end
  end.

End ProfilePage.

(** ** Every statement of the pages *)

(** [Db.step] and the update of the profile page. *)
Inductive statement : Db.t -> Db.t -> Prop :=
| statement_step db db' : Db.step db db' -> statement db db'
| statement_update_profile uid now id v db :
    statement db (ProfilePage.update_profile uid now id v db).

Inductive reached : Db.t -> Prop :=
| reached_empty : reached Db.empty
| reached_next db db' : reached db -> statement db db' -> reached db'.

(** ** The profile page: what a valid form is, and the saved row *)

(** The form passes [profileSchema]: a name of 2 to 100 code units after
    trimming, and a bio and a location that are not empty and, trimmed,
    at most 500 and 200 code units long. *)
Definition profile_valid (d : ProfilePage.form) : Prop :=
  2 <= Js.length (Js.trim (ProfilePage.full_name d)) <= 100
  /\ ProfilePage.bio d <> []
  /\ Js.length (Js.trim (ProfilePage.bio d)) <= 500
  /\ ProfilePage.location d <> []
  /\ Js.length (Js.trim (ProfilePage.location d)) <= 200.

Definition trimmed_form (d : ProfilePage.form) : ProfilePage.validated :=
  {| ProfilePage.v_full_name := Js.trim (ProfilePage.full_name d);
     ProfilePage.v_bio := Js.trim (ProfilePage.bio d);
     ProfilePage.v_location := Js.trim (ProfilePage.location d) |}.

(** The profile [handle_new_user] creates. *)
Definition new_profile (now : Db.timestamptz) (id : Db.uuid)
    (meta_full_name : option Js.jsstring) : Db.Profile.t :=
  {| Db.Profile.id := id;
     Db.Profile.full_name := match meta_full_name with
                             | Some n => n
                             | None => Js.str "Anonymous User"
                             end;
     Db.Profile.bio := None;
     Db.Profile.location := None;
     Db.Profile.profile_picture := None;
     Db.Profile.created_at := now;
     Db.Profile.updated_at := now |}.

Definition profile_form (name bio location : string) : ProfilePage.form :=
  {| ProfilePage.full_name := Js.str name;
     ProfilePage.bio := Js.str bio;
     ProfilePage.location := Js.str location |}.

(** ** Deleting an event *)

(** What [handleDelete] reports, whatever the statement removed. *)
Definition deleted_effects : list effect :=
  [toast_success "Event deleted successfully"; navigate "/"].

(** [db_public] with an answer and a review of account 2 on event 10. *)
Definition db_busy : Db.t :=
  {| Db.profiles := Db.profiles db_public;
     Db.events := [event_of 10 true; event_of 20 false];
     Db.rsvps := [rsvp_of 30 10 2 Db.maybe; rsvp_of 31 20 2 Db.going];
     Db.reviews := [review_of 50 10 2 4] |}.

(** ** What the event page renders from the RSVPs *)

(** [r.status === "going"] and the like. *)
Definition status_is (s : Db.rsvp_status) (r : Db.Rsvp.t) : bool :=
  match Db.Rsvp.status r, s with
  | Db.going, Db.going | Db.maybe, Db.maybe | Db.not_going, Db.not_going => true
  | _, _ => false
  end.

(** [event.rsvps.filter((r) => r.status === s).length], the number on
    the "Going" and "Maybe" buttons. *)
Definition status_count (s : Db.rsvp_status) (d : EventDetails.details) : nat :=
  List.length (filter (status_is s) (EventDetails.rsvps d)).

(** [rsvp_count={event.rsvps.length}], the number on the card of the
    list. *)
Definition rsvp_count (it : Index.item) : nat := List.length (Index.rsvps it).

(** A row of another pair than ([id], [u]). *)
Definition other_pair (id u : Db.uuid) (r : Db.Rsvp.t) : bool :=
  negb (rsvp_of_pair id u r).

(** ** Creating an event: the valid form and the stored row *)

(** The form passes [eventSchema] and the time comparison. *)
Definition event_form_valid (d : CreateEvent.form) (s e : Db.timestamptz) : Prop :=
  3 <= Js.length (Js.trim (CreateEvent.title d)) <= 200
  /\ 10 <= Js.length (Js.trim (CreateEvent.description d)) <= 2000
  /\ 3 <= Js.length (Js.trim (CreateEvent.location d)) <= 500
  /\ CreateEvent.start_time d = Some s
  /\ CreateEvent.end_time d = Some e
  /\ s < e.

(** The row [handleSubmit] sends. *)
Definition created_event (u : Db.uuid) (isPublic : bool) (now : Db.timestamptz)
    (newid : Db.uuid) (d : CreateEvent.form) (s e : Db.timestamptz) : Db.Event.t :=
  {| Db.Event.id := newid;
     Db.Event.title := Js.trim (CreateEvent.title d);
     Db.Event.description := Js.trim (CreateEvent.description d);
     Db.Event.organizer_id := u;
     Db.Event.location := Js.trim (CreateEvent.location d);
     Db.Event.start_time := s;
     Db.Event.end_time := e;
     Db.Event.is_public := isPublic;
     Db.Event.created_at := now;
     Db.Event.updated_at := now |}.

Definition add_event (x : Db.Event.t) (db : Db.t) : Db.t :=
  {| Db.profiles := Db.profiles db;
     Db.events := Db.events db ++ [x];
     Db.rsvps := Db.rsvps db;
     Db.reviews := Db.reviews db |}.

Definition created_effects : list effect :=
  [toast_success "Event created successfully!"; navigate "/"].

Definition concert_form : CreateEvent.form :=
  {| CreateEvent.title := Js.str "  Autumn Concert ";
     CreateEvent.description := Js.str "An evening of chamber music";
     CreateEvent.location := Js.str "Town hall";
     CreateEvent.start_time := Some 1000;
     CreateEvent.end_time := Some 2000 |}.

(** ** Text without white space at either end *)

Definition starts_clean (s : Js.jsstring) : Prop :=
  match s with
  | [] => True
  | c :: _ => Js.isWhiteSpace c = false
  end.

Definition no_outer_space (s : Js.jsstring) : Prop :=
  starts_clean s /\ starts_clean (rev s).

(* ===================================================================== *)
(** * Lemmas on lists *)
(* ===================================================================== *)

Section ListFacts.

Context {A B : Type}.

Lemma NoDup_map_filter (keep : A -> bool) (key : A -> B) (rows : list A) :
  NoDup (map key rows) -> NoDup (map key (filter keep rows)).
Proof.
  intros Hnd. induction rows as [|x rows IH]; simpl in *; [constructor|].
  inversion Hnd as [|? ? Hx Hl]; subst.
  destruct (keep x); simpl; auto.
  constructor; auto.
  intros Hin. apply Hx.
  apply in_map_iff in Hin. destruct Hin as [y [Hy Hin]].
  apply filter_In in Hin. rewrite <- Hy. apply in_map. tauto.
Qed.

Lemma NoDup_map_snoc (f : A -> B) (l : list A) (x : A) :
  NoDup (map f l) -> ~ In (f x) (map f l) -> NoDup (map f (l ++ [x])).
Proof.
  intros Hl Hx. rewrite map_app. simpl.
  induction (map f l) as [|y m IH]; simpl.
  - constructor; [intros []|constructor].
  - inversion Hl; subst. constructor.
    + rewrite in_app_iff. simpl. intros [H|[H|[]]]; [tauto|].
      apply Hx. left. congruence.
    + apply IH; auto. intros H. apply Hx. now right.
Qed.

Lemma Forall_snoc (P : A -> Prop) (l : list A) (x : A) :
  Forall P l -> P x -> Forall P (l ++ [x]).
Proof.
  intros Hl Hx. apply Forall_app. split; auto.
Qed.

Lemma Forall_filter (P : A -> Prop) (p : A -> bool) (l : list A) :
  Forall P l -> Forall P (filter p l).
Proof.
  intros H. apply Forall_forall. intros x Hx.
  apply filter_In in Hx. rewrite Forall_forall in H. apply H. tauto.
Qed.

Lemma subseq_filter (p : A -> bool) (l : list A) : subseq (filter p l) l.
Proof.
  induction l as [|x l IH]; simpl; [constructor|].
  destruct (p x); now constructor.
Qed.

Lemma subseq_In (l1 l2 : list A) (x : A) : subseq l1 l2 -> In x l1 -> In x l2.
Proof.
  induction 1; simpl; intros Hin; auto.
  destruct Hin; auto.
Qed.

Lemma subseq_sorted (R : A -> A -> Prop) (l1 l2 : list A) :
  subseq l1 l2 -> StronglySorted R l2 -> StronglySorted R l1.
Proof.
  induction 1 as [|x l1 l2 Hs IH|x l1 l2 Hs IH]; intros Hl; auto.
  - inversion Hl; subst. constructor; auto.
    apply Forall_forall. intros y Hy.
    match goal with H : Forall _ l2 |- _ => rewrite Forall_forall in H; apply H end.
    eapply subseq_In; eauto.
  - inversion Hl; subst. auto.
Qed.

End ListFacts.

(* ===================================================================== *)
(** * The table constraints hold in every reachable state *)
(* ===================================================================== *)

Lemma key_eqb_eq (a b : Db.uuid * Db.uuid) : Db.key_eqb a b = true <-> a = b.
Proof.
  destruct a as [a1 a2], b as [b1 b2]. unfold Db.key_eqb. simpl.
  rewrite andb_true_iff, !Z.eqb_eq. split.
  - intros [-> ->]. reflexivity.
  - intros H. inversion H. auto.
Qed.

Lemma existsb_false_not_In {A K : Type} (key : A -> K) (eqb : K -> K -> bool)
    (k : K) (l : list A) :
  (forall a b, eqb a b = true <-> a = b) ->
  existsb (fun x => eqb (key x) k) l = false -> ~ In k (map key l).
Proof.
  intros Heq Hex Hin.
  apply in_map_iff in Hin. destruct Hin as [x [Hx Hin]].
  assert (existsb (fun x => eqb (key x) k) l = true) as Ht.
  { apply existsb_exists. exists x. split; auto. apply Heq. exact Hx. }
  congruence.
Qed.

Ltac inl_inversion H :=
  repeat match type of H with
         | (if ?c then _ else _) = inl _ =>
             let E := fresh "E" in destruct c eqn:E; [discriminate H|]
         end;
  try (injection H as H; subst).

Lemma insert_event_inl uid e db db' :
  Db.insert_event uid e db = inl db' ->
  Db.valid_time_range e = true /\ Db.has_event db (Db.Event.id e) = false
  /\ Db.events db' = Db.events db ++ [e]
  /\ Db.rsvps db' = Db.rsvps db /\ Db.reviews db' = Db.reviews db
  /\ Db.profiles db' = Db.profiles db.
Proof.
  unfold Db.insert_event. intros H. inl_inversion H. simpl.
  apply negb_false_iff in E0. auto 10.
Qed.

Lemma insert_rsvp_inl uid r db db' :
  Db.insert_rsvp uid r db = inl db' ->
  existsb (fun x => Db.key_eqb (Db.Rsvp.key x) (Db.Rsvp.key r)) (Db.rsvps db) = false
  /\ Db.rsvps db' = Db.rsvps db ++ [r]
  /\ Db.events db' = Db.events db /\ Db.reviews db' = Db.reviews db
  /\ Db.profiles db' = Db.profiles db.
Proof.
  unfold Db.insert_rsvp. intros H. inl_inversion H. simpl. auto 10.
Qed.

Lemma insert_review_inl uid r db db' :
  Db.insert_review uid r db = inl db' ->
  existsb (fun x => Db.key_eqb (Db.Review.key x) (Db.Review.key r)) (Db.reviews db) = false
  /\ Db.reviews db' = Db.reviews db ++ [r]
  /\ Db.events db' = Db.events db /\ Db.rsvps db' = Db.rsvps db
  /\ Db.profiles db' = Db.profiles db.
Proof.
  unfold Db.insert_review. intros H. inl_inversion H. simpl. auto 10.
Qed.

Lemma update_rsvp_keys uid now e u s db :
  map Db.Rsvp.key (Db.rsvps (Db.update_rsvp_status uid now e u s db))
  = map Db.Rsvp.key (Db.rsvps db).
Proof.
  unfold Db.update_rsvp_status. simpl. rewrite map_map.
  apply map_ext. intros r.
  destruct (_ && _); reflexivity.
Qed.

Lemma step_constraints db db' : Db.step db db' -> constraints db -> constraints db'.
Proof.
  intros Hstep [Hv Hpk Hr Hw].
  unfold Db.events_valid, events_pk, Db.rsvps_unique, Db.reviews_unique in *.
  destruct Hstep as [now id meta db db' H|u db|uid e db db' H|uid e db
                    |uid r db db' H|uid now e u s db|uid r db db' H].
  - unfold Db.handle_new_user in H.
    destruct (Db.has_profile db id); [discriminate|]. injection H as <-.
    constructor; assumption.
  - constructor; unfold Db.events_valid, events_pk, Db.rsvps_unique,
      Db.reviews_unique; simpl;
      auto using Forall_filter, NoDup_map_filter.
  - apply insert_event_inl in H.
    destruct H as (Hc & Hid & He & Hrs & Hrv & _).
    constructor; unfold Db.events_valid, events_pk, Db.rsvps_unique,
      Db.reviews_unique; rewrite ?He, ?Hrs, ?Hrv; auto.
    + apply Forall_snoc; auto. apply Z.ltb_lt. exact Hc.
    + apply NoDup_map_snoc; auto.
      apply existsb_false_not_In with (eqb := Z.eqb); auto using Z.eqb_eq.
  - constructor; unfold Db.events_valid, events_pk, Db.rsvps_unique,
      Db.reviews_unique; simpl;
      auto using Forall_filter, NoDup_map_filter.
  - apply insert_rsvp_inl in H.
    destruct H as (Hk & Hrs & He & Hrv & _).
    constructor; unfold Db.events_valid, events_pk, Db.rsvps_unique,
      Db.reviews_unique; rewrite ?He, ?Hrs, ?Hrv; auto.
    apply NoDup_map_snoc; auto.
    apply existsb_false_not_In with (eqb := Db.key_eqb); auto using key_eqb_eq.
  - constructor; unfold Db.events_valid, events_pk, Db.rsvps_unique,
      Db.reviews_unique; auto.
    rewrite update_rsvp_keys. exact Hr.
  - apply insert_review_inl in H.
    destruct H as (Hk & Hrv & He & Hrs & _).
    constructor; unfold Db.events_valid, events_pk, Db.rsvps_unique,
      Db.reviews_unique; rewrite ?He, ?Hrs, ?Hrv; auto.
    apply NoDup_map_snoc; auto.
    apply existsb_false_not_In with (eqb := Db.key_eqb); auto using key_eqb_eq.
Qed.

Lemma reachable_constraints db : Db.reachable db -> constraints db.
Proof.
  induction 1 as [|db db' _ IH Hstep].
  - constructor; unfold Db.events_valid, events_pk, Db.rsvps_unique,
      Db.reviews_unique; simpl; constructor.
  - eapply step_constraints; eauto.
Qed.

(* ===================================================================== *)
(** * Creating an event: the time range *)
(* ===================================================================== *)

Lemma insert_event_bad_range uid e db :
  Db.Event.end_time e <= Db.Event.start_time e ->
  exists err, Db.insert_event uid e db = inr err.
Proof.
  intros Hle. unfold Db.insert_event.
  destruct (negb (Db.events_insert uid e)); [eauto|].
  assert (Db.valid_time_range e = false) as ->.
  { unfold Db.valid_time_range. apply Z.ltb_ge. exact Hle. }
  simpl. eauto.
Qed.

Lemma eventSchema_parse_times data s e :
  CreateEvent.start_time data = Some s ->
  CreateEvent.end_time data = Some e ->
  CreateEvent.eventSchema_parse data
  = match CreateEvent.eventSchema_issues data with
    | [] => inl {| CreateEvent.v_title := Js.trim (CreateEvent.title data);
                   CreateEvent.v_description := Js.trim (CreateEvent.description data);
                   CreateEvent.v_location := Js.trim (CreateEvent.location data);
                   CreateEvent.v_start_time := s;
                   CreateEvent.v_end_time := e |}
    | issues => inr issues
    end.
Proof.
  intros Hs He. unfold CreateEvent.eventSchema_parse. rewrite Hs, He.
  destruct (CreateEvent.eventSchema_issues data); reflexivity.
Qed.

(** C3, amended.  Every stored event row has [end_time > start_time], in
    every reachable state; an insert of a row with [end_time <= start_time]
    is refused by the table; and a creation attempt of a signed-in user
    with [end_time <= start_time] leaves the stored state unchanged and
    fails: with "End time must be after start time" when the form passes
    [eventSchema], with the first issue of the schema otherwise. *)
Theorem C3_time_range :
  (forall db, Db.reachable db -> Db.events_valid db)
  /\ (forall uid e db,
        Db.Event.end_time e <= Db.Event.start_time e ->
        exists err, Db.insert_event uid e db = inr err)
  /\ (forall u isPublic now newid data db s e,
        CreateEvent.start_time data = Some s ->
        CreateEvent.end_time data = Some e ->
        e <= s ->
        CreateEvent.handleSubmit (Some u) isPublic now newid data db
        = (db, match CreateEvent.eventSchema_issues data with
               | [] => [toast_error (text "End time must be after start time")]
               | issues => toast_first_issue issues
               end)).
Proof.
  split; [|split].
  - intros db H. apply reachable_constraints in H. apply H.
  - apply insert_event_bad_range.
  - intros u isPublic now newid data db s e Hs He Hle.
    unfold CreateEvent.handleSubmit.
    rewrite (eventSchema_parse_times data s e Hs He).
    destruct (CreateEvent.eventSchema_issues data) as [|i issues]; [|reflexivity].
    simpl. apply Z.leb_le in Hle. rewrite Hle. reflexivity.
Qed.

Lemma c3_db_reachable : Db.reachable c3_db.
Proof.
  apply Db.reachable_step with (db := Db.empty); [constructor|].
  apply Db.step_signup with (now := 0) (id := 1) (meta := Some (Js.str "Ada")).
  reflexivity.
Qed.

Lemma C3_time_range_witness :
  Db.events_valid c3_db
  /\ CreateEvent.handleSubmit (Some 1) true 5 9 (c3_form "Concert") c3_db
     = (c3_db, [toast_error (text "End time must be after start time")]).
Proof.
  split.
  - apply (proj1 C3_time_range c3_db). exact c3_db_reachable.
  - apply (proj2 (proj2 C3_time_range) 1 true 5 9 (c3_form "Concert") c3_db 2000 1000).
    + reflexivity.
    + reflexivity.
    + lia.
Defined.

(** C3 as stated fails: with a title of two characters and
    [end_time <= start_time] the attempt is refused with the title's
    issue, not with the time range error. *)
Lemma C3_counterexample :
  CreateEvent.end_time (c3_form "ab") = Some 1000
  /\ CreateEvent.start_time (c3_form "ab") = Some 2000
  /\ 1000 <= 2000
  /\ CreateEvent.handleSubmit (Some 1) true 5 9 (c3_form "ab") c3_db
     = (c3_db,
        [toast_error
           (zod_message {| Zod.issue_code := Zod.too_small;
                           Zod.path := "title";
                           Zod.message := Some "Title must be at least 3 characters"%string |})])
  /\ snd (CreateEvent.handleSubmit (Some 1) true 5 9 (c3_form "ab") c3_db)
     <> [toast_error (text "End time must be after start time")].
Proof.
  repeat split; try reflexivity; try lia.
  vm_compute. discriminate.
Qed.

(* ===================================================================== *)
(** * Submitting a review *)
(* ===================================================================== *)

Lemma number_min_max_nil field lo hi n :
  Zod.number_min_max field lo hi n = [] <-> lo <= n <= hi.
Proof.
  unfold Zod.number_min_max.
  destruct (Z.ltb_spec n lo), (Z.ltb_spec hi n); simpl; split;
    intros Hn; try discriminate; try reflexivity; lia.
Qed.

Lemma string_min_max_nil field lo msg hi s :
  Zod.string_min_max field lo msg hi s = [] <-> lo <= Js.length s <= hi.
Proof.
  unfold Zod.string_min_max.
  destruct (Z.ltb_spec (Js.length s) lo), (Z.ltb_spec hi (Js.length s)); simpl;
    split; intros Hn; try discriminate; try reflexivity; lia.
Qed.

Lemma reviewSchema_issues_nil pg :
  EventDetails.reviewSchema_issues (EventDetails.rating pg) (EventDetails.comment pg) = []
  <-> review_valid pg.
Proof.
  unfold EventDetails.reviewSchema_issues, review_valid.
  rewrite <- number_min_max_nil with (field := "rating"%string).
  rewrite <- string_min_max_nil
    with (field := "comment"%string)
         (msg := Some "Review must be at least 10 characters"%string).
  split.
  - intros H. apply app_eq_nil in H. exact H.
  - intros [-> ->]. reflexivity.
Qed.

Lemma uid_is_refl u : Db.uid_is (Some u) u = true.
Proof. apply Z.eqb_refl. Qed.

Lemma existsb_key_In (k : Db.uuid * Db.uuid) (l : list Db.Review.t) :
  In k (map Db.Review.key l) ->
  existsb (fun x => Db.key_eqb (Db.Review.key x) k) l = true.
Proof.
  intros Hin. apply in_map_iff in Hin. destruct Hin as [x [Hx Hin]].
  apply existsb_exists. exists x. split; auto. apply key_eqb_eq. exact Hx.
Qed.

(** A review that passed the schema and whose pair is taken comes back
    with a unique violation, whichever index reports it. *)
Lemma insert_review_duplicate u id now newid db pg :
  review_valid pg ->
  In (id, u) (map Db.Review.key (Db.reviews db)) ->
  exists c, Db.insert_review (Some u) (submitted_review u id now newid pg) db
            = inr (Db.unique_violation c)
            /\ (c = "reviews_pkey" \/ c = "reviews_event_id_user_id_key")%string.
Proof.
  intros [Hr _] Hin. unfold Db.insert_review.
  unfold Db.reviews_insert. simpl Db.Review.user_id. rewrite uid_is_refl. simpl negb.
  assert (Db.reviews_rating_check (submitted_review u id now newid pg) = true) as ->.
  { unfold Db.reviews_rating_check. simpl.
    apply andb_true_iff. split; apply Z.leb_le; lia. }
  simpl negb. cbv iota.
  destruct (existsb _ (Db.reviews db)); [eauto|].
  replace (Db.Review.key (submitted_review u id now newid pg)) with (id, u)
    by reflexivity.
  rewrite (existsb_key_In _ _ Hin). eauto.
Qed.

Lemma handleSubmitReview_valid u id now newid db pg :
  review_valid pg ->
  EventDetails.handleSubmitReview (Some u) id now newid db pg
  = match Db.insert_review (Some u) (submitted_review u id now newid pg) db with
    | inr err =>
        if Js.includes (Js.str (Db.message err)) (Js.str "duplicate") then
          (db, pg, [toast_error (text "You've already reviewed this event")])
        else (db, pg, [toast_error (text "Failed to submit review")])
    | inl db' =>
        (db', fst (EventDetails.fetchEvent (Some u) id db' (reset_form pg)),
         toast_success "Review submitted successfully!"
         :: snd (EventDetails.fetchEvent (Some u) id db' (reset_form pg)))
    end.
Proof.
  intros Hv. apply reviewSchema_issues_nil in Hv.
  unfold EventDetails.handleSubmitReview, EventDetails.reviewSchema_parse.
  rewrite Hv. fold (submitted_review u id now newid pg).
  destruct (Db.insert_review _ _ db) as [db'|err]; [|reflexivity].
  fold (reset_form pg).
  destruct (EventDetails.fetchEvent (Some u) id db' (reset_form pg)). reflexivity.
Qed.

Lemma handleSubmitReview_invalid u id now newid db pg :
  ~ review_valid pg ->
  exists i issues,
    EventDetails.reviewSchema_issues (EventDetails.rating pg) (EventDetails.comment pg)
    = i :: issues
    /\ EventDetails.handleSubmitReview (Some u) id now newid db pg
       = (db, pg, [toast_error (zod_message i)]).
Proof.
  intros Hv. rewrite <- reviewSchema_issues_nil in Hv.
  unfold EventDetails.handleSubmitReview, EventDetails.reviewSchema_parse.
  destruct (EventDetails.reviewSchema_issues _ _) as [|i issues]; [tauto|].
  exists i, issues. split; reflexivity.
Qed.

Lemma duplicate_toast u id now newid db pg :
  review_valid pg ->
  In (id, u) (map Db.Review.key (Db.reviews db)) ->
  EventDetails.handleSubmitReview (Some u) id now newid db pg
  = (db, pg, [toast_error (text "You've already reviewed this event")]).
Proof.
  intros Hv Hin. rewrite (handleSubmitReview_valid u id now newid db pg Hv).
  destruct (insert_review_duplicate u id now newid db pg Hv Hin) as (c & -> & Hc).
  destruct Hc as [-> | ->]; reflexivity.
Qed.

(** C7, amended.  In every reachable state a pair (event_id, user_id)
    has at most one review row.  A submission by a signed-in user for a
    pair that already has a review leaves the stored state (and the page)
    unchanged and is refused: with "You've already reviewed this event"
    when rating and comment pass [reviewSchema], with the first issue of
    the schema otherwise. *)
Theorem C7_duplicate_review :
  (forall db, Db.reachable db -> Db.reviews_unique db)
  /\ (forall u id now newid db pg,
        In (id, u) (map Db.Review.key (Db.reviews db)) ->
        EventDetails.handleSubmitReview (Some u) id now newid db pg
        = (db, pg,
           match EventDetails.reviewSchema_issues
                   (EventDetails.rating pg) (EventDetails.comment pg) with
           | [] => [toast_error (text "You've already reviewed this event")]
           | issues => toast_first_issue issues
           end)).
Proof.
  split.
  - intros db H. apply reachable_constraints in H. apply H.
  - intros u id now newid db pg Hin.
    destruct (EventDetails.reviewSchema_issues _ _) as [|i issues] eqn:E.
    + apply duplicate_toast; auto. apply reviewSchema_issues_nil. exact E.
    + unfold EventDetails.handleSubmitReview, EventDetails.reviewSchema_parse.
      rewrite E. reflexivity.
Qed.

Lemma db_reviewed_reachable : Db.reachable db_reviewed.
Proof.
  apply Db.reachable_step with (db := db_public).
  - apply Db.reachable_step
      with (db := {| Db.profiles := Db.profiles db_public; Db.events := [];
                     Db.rsvps := []; Db.reviews := [] |}).
    + apply Db.reachable_step
        with (db := {| Db.profiles := [profile_of 1 "Ada"]; Db.events := [];
                       Db.rsvps := []; Db.reviews := [] |}).
      * apply Db.reachable_step with (db := Db.empty); [constructor|].
        apply Db.step_signup with (now := 0) (id := 1) (meta := Some (Js.str "Ada")).
        reflexivity.
      * apply Db.step_signup with (now := 0) (id := 2) (meta := Some (Js.str "Grace")).
        reflexivity.
    + apply Db.step_insert_event with (uid := Some 1) (e := event_of 10 true).
      reflexivity.
  - apply Db.step_insert_review with (uid := Some 2) (r := review_of 50 10 2 4).
    reflexivity.
Qed.

Lemma C7_duplicate_review_witness :
  Db.reviews_unique db_reviewed
  /\ EventDetails.handleSubmitReview (Some 2) 10 300 51 db_reviewed
       (page_with 5 "Even better the second time")
     = (db_reviewed, page_with 5 "Even better the second time",
        [toast_error (text "You've already reviewed this event")]).
Proof.
  split.
  - apply (proj1 C7_duplicate_review db_reviewed). exact db_reviewed_reachable.
  - apply (proj2 C7_duplicate_review 2 10 300 51 db_reviewed
             (page_with 5 "Even better the second time")).
    simpl. left. reflexivity.
Defined.

(** C7 as stated fails: a second review of the same pair whose comment
    is shorter than ten characters is refused with the issue of the
    comment, not as a duplicate. *)
Lemma C7_counterexample :
  In (10, 2) (map Db.Review.key (Db.reviews db_reviewed))
  /\ EventDetails.handleSubmitReview (Some 2) 10 300 51 db_reviewed (page_with 5 "Good")
     = (db_reviewed, page_with 5 "Good",
        [toast_error
           (zod_message {| Zod.issue_code := Zod.too_small;
                           Zod.path := "comment";
                           Zod.message := Some "Review must be at least 10 characters"%string |})])
  /\ snd (EventDetails.handleSubmitReview (Some 2) 10 300 51 db_reviewed
            (page_with 5 "Good"))
     <> [toast_error (text "You've already reviewed this event")].
Proof.
  split; [simpl; auto|]. split; [reflexivity|].
  vm_compute. discriminate.
Qed.

(** C10.  A submission of a signed-in user is refused with an issue of
    [reviewSchema], nothing being stored, exactly when the rating is
    outside 1..5 or the trimmed comment has fewer than 10 or more than
    1000 code units; a row that is stored carries the trimmed comment;
    and a non-empty comment of four characters is among the refused. *)
Theorem C10_review_validation :
  (forall u id now newid db pg,
     (~ review_valid pg ->
      exists i, EventDetails.handleSubmitReview (Some u) id now newid db pg
                = (db, pg, [toast_error (zod_message i)]))
     /\ (review_valid pg ->
         forall i, snd (EventDetails.handleSubmitReview (Some u) id now newid db pg)
                   <> [toast_error (zod_message i)])
     /\ (fst (fst (EventDetails.handleSubmitReview (Some u) id now newid db pg)) = db
         \/ fst (fst (EventDetails.handleSubmitReview (Some u) id now newid db pg))
            = add_review (submitted_review u id now newid pg) db))
  /\ (Js.trim (Js.str " Good ") <> []
      /\ Js.length (Js.trim (Js.str " Good ")) = 4
      /\ forall u id now newid db,
           EventDetails.handleSubmitReview (Some u) id now newid db (page_with 5 " Good ")
           = (db, page_with 5 " Good ",
              [toast_error
                 (zod_message
                    {| Zod.issue_code := Zod.too_small;
                       Zod.path := "comment";
                       Zod.message := Some "Review must be at least 10 characters"%string |})])).
Proof.
  split.
  - intros u id now newid db pg. split; [|split].
    + intros Hv.
      destruct (handleSubmitReview_invalid u id now newid db pg Hv) as (i & l & _ & H).
      eauto.
    + intros Hv i. rewrite (handleSubmitReview_valid u id now newid db pg Hv).
      destruct (Db.insert_review _ _ db) as [db'|err].
      * simpl. discriminate.
      * destruct (Js.includes _ _); simpl; discriminate.
    + unfold EventDetails.handleSubmitReview, EventDetails.reviewSchema_parse.
      destruct (EventDetails.reviewSchema_issues _ _) as [|i l]; [|left; reflexivity].
      fold (submitted_review u id now newid pg).
      destruct (Db.insert_review _ _ db) as [db'|err] eqn:E.
      * right. destruct (EventDetails.fetchEvent _ _ _ _). simpl.
        apply insert_review_inl in E.
        destruct E as (_ & Hrv & He & Hrs & Hp).
        destruct db'. unfold add_review. simpl in *. congruence.
      * left. destruct (Js.includes _ _); reflexivity.
  - split; [vm_compute; discriminate|]. split; [reflexivity|].
    intros. reflexivity.
Qed.

Lemma C10_review_validation_witness :
  (exists i, EventDetails.handleSubmitReview (Some 2) 10 300 51 db_public (page_with 6 "A wonderful evening")
             = (db_public, page_with 6 "A wonderful evening", [toast_error (zod_message i)]))
  /\ (forall i, snd (EventDetails.handleSubmitReview (Some 2) 10 300 51 db_public
                       (page_with 5 "A wonderful evening"))
                <> [toast_error (zod_message i)]).
Proof.
  split.
  - apply (proj1 (proj1 C10_review_validation 2 10 300 51 db_public
                    (page_with 6 "A wonderful evening"))).
    unfold review_valid. simpl. lia.
  - apply (proj1 (proj2 (proj1 C10_review_validation 2 10 300 51 db_public
                           (page_with 5 "A wonderful evening")))).
    unfold review_valid. split; [simpl; lia|]. vm_compute. split; discriminate.
Defined.

(* ===================================================================== *)
(** * Reviews and the end of the event *)
(* ===================================================================== *)

Lemma insert_review_fresh u r db :
  Db.Review.user_id r = u ->
  1 <= Db.Review.rating r <= 5 ->
  existsb (fun x => Db.Review.id x =? Db.Review.id r) (Db.reviews db) = false ->
  existsb (fun x => Db.key_eqb (Db.Review.key x) (Db.Review.key r)) (Db.reviews db) = false ->
  Db.has_event db (Db.Review.event_id r) = true ->
  Db.has_profile db u = true ->
  Db.insert_review (Some u) r db = inl (add_review r db).
Proof.
  intros Hu Hr Hid Hkey He Hp. unfold Db.insert_review.
  unfold Db.reviews_insert. rewrite Hu, uid_is_refl. simpl negb.
  assert (Db.reviews_rating_check r = true) as ->.
  { unfold Db.reviews_rating_check. apply andb_true_iff.
    split; apply Z.leb_le; lia. }
  simpl negb. cbv iota. rewrite Hid, Hkey, He, Hp. reflexivity.
Qed.

(** C1, amended.  The review form is rendered only once the event's
    [end_time] lies before the current instant; [handleSubmitReview]
    itself never looks at [end_time]: a submission of a signed-in user
    that passes [reviewSchema], for an existing event and a pair without
    a review, is stored and answered with "Review submitted
    successfully!", whether or not the event has ended. *)
Theorem C1_review_gate :
  (forall user now d,
     EventDetails.showReviewForm user now d = true ->
     Db.Event.end_time (EventDetails.row d) < now)
  /\ (forall u id now newid db pg,
        review_valid pg ->
        Db.has_event db id = true ->
        Db.has_profile db u = true ->
        existsb (fun x => Db.Review.id x =? newid) (Db.reviews db) = false ->
        ~ In (id, u) (map Db.Review.key (Db.reviews db)) ->
        let db' := add_review (submitted_review u id now newid pg) db in
        EventDetails.handleSubmitReview (Some u) id now newid db pg
        = (db', fst (EventDetails.fetchEvent (Some u) id db' (reset_form pg)),
           toast_success "Review submitted successfully!"
           :: snd (EventDetails.fetchEvent (Some u) id db' (reset_form pg)))).
Proof.
  split.
  - intros user now d H. unfold EventDetails.showReviewForm in H.
    destruct user as [u|]; [|discriminate].
    apply andb_true_iff in H. destruct H as [H _].
    unfold EventDetails.hasEnded in H. apply Z.ltb_lt. exact H.
  - intros u id now newid db pg Hv He Hp Hid Hkey db'.
    rewrite (handleSubmitReview_valid u id now newid db pg Hv).
    assert (existsb (fun x => Db.key_eqb (Db.Review.key x) (id, u)) (Db.reviews db)
            = false) as Hk.
    { destruct (existsb (fun x => Db.key_eqb (Db.Review.key x) (id, u))
                        (Db.reviews db)) eqn:E; [|reflexivity].
      exfalso. apply Hkey.
      apply existsb_exists in E. destruct E as [x [Hin Hx]].
      apply key_eqb_eq in Hx. apply in_map_iff. exists x. split; auto. }
    rewrite (insert_review_fresh u (submitted_review u id now newid pg) db);
      auto. apply Hv.
Qed.

Lemma C1_review_gate_witness :
  let pg := page_with 5 "A wonderful evening" in
  let db' := add_review (submitted_review 2 10 250 51 pg) db_public in
  EventDetails.handleSubmitReview (Some 2) 10 250 51 db_public pg
  = (db', fst (EventDetails.fetchEvent (Some 2) 10 db' (reset_form pg)),
     toast_success "Review submitted successfully!"
     :: snd (EventDetails.fetchEvent (Some 2) 10 db' (reset_form pg))).
Proof.
  intros pg db'.
  apply (proj2 C1_review_gate 2 10 250 51 db_public pg).
  - unfold review_valid. split; [simpl; lia|]. vm_compute. split; discriminate.
  - reflexivity.
  - reflexivity.
  - reflexivity.
  - simpl. tauto.
Defined.

(** C1 as stated fails: event 10 ends at 200, the review is submitted at
    150, and it is stored and acknowledged. *)
Lemma C1_counterexample :
  In (event_of 10 true) (Db.events db_public)
  /\ 150 < Db.Event.end_time (event_of 10 true)
  /\ Db.reviews
       (fst (fst (EventDetails.handleSubmitReview (Some 2) 10 150 51 db_public
                    (page_with 5 "A wonderful evening"))))
     = [submitted_review 2 10 150 51 (page_with 5 "A wonderful evening")]
  /\ snd (EventDetails.handleSubmitReview (Some 2) 10 150 51 db_public
            (page_with 5 "A wonderful evening"))
     = [toast_success "Review submitted successfully!"].
Proof.
  split; [simpl; auto|]. split; [simpl; lia|]. split; reflexivity.
Qed.

(* ===================================================================== *)
(** * The order of the list of events *)
(* ===================================================================== *)

Lemma insert_by_start_perm e l : Permutation (Index.insert_by_start e l) (e :: l).
Proof.
  induction l as [|x l IH]; simpl; [reflexivity|].
  destruct (_ <=? _); [reflexivity|].
  rewrite IH. apply perm_swap.
Qed.

Lemma order_by_start_perm l : Permutation (Index.order_by_start l) l.
Proof.
  induction l as [|x l IH]; simpl; [constructor|].
  rewrite insert_by_start_perm. now constructor.
Qed.

Lemma insert_by_start_sorted e l :
  StronglySorted by_start l -> StronglySorted by_start (Index.insert_by_start e l).
Proof.
  induction l as [|x l IH]; simpl; intros Hl.
  - constructor; constructor.
  - inversion Hl as [|? ? Hs Hx]; subst.
    destruct (Z.leb_spec (Db.Event.start_time e) (Db.Event.start_time x)) as [Hle|Hgt].
    + constructor; auto. constructor; auto.
      eapply Forall_impl; [|exact Hx]. unfold by_start. intros. lia.
    + constructor; auto.
      apply Forall_forall. intros y Hy.
      apply (Permutation_in _ (insert_by_start_perm e l)) in Hy.
      destruct Hy as [<-|Hy].
      * unfold by_start. lia.
      * rewrite Forall_forall in Hx. auto.
Qed.

Lemma order_by_start_sorted l : StronglySorted by_start (Index.order_by_start l).
Proof.
  induction l as [|x l IH]; simpl; [constructor|].
  now apply insert_by_start_sorted.
Qed.

Lemma upcoming_rows_In uid now db e :
  In e (Index.upcoming_rows uid now db)
  <-> In e (Db.events db) /\ Db.Event.is_public e = true
      /\ now <= Db.Event.start_time e.
Proof.
  unfold Index.upcoming_rows, Db.select_events.
  split.
  - intros H. apply (Permutation_in _ (order_by_start_perm _)) in H.
    rewrite !filter_In in H. destruct H as [[[Hin _] Hp] Hs].
    apply Z.leb_le in Hs. apply Bool.eqb_prop in Hp. auto.
  - intros (Hin & Hp & Hs).
    apply (Permutation_in _ (Permutation_sym (order_by_start_perm _))).
    rewrite !filter_In. unfold Db.events_select. rewrite Hp. simpl.
    repeat split; auto. apply Z.leb_le. exact Hs.
Qed.

(* ===================================================================== *)
(** * Who sees what *)
(* ===================================================================== *)

Lemma filter_true {A : Type} (rows : list A) : filter (fun _ => true) rows = rows.
Proof.
  induction rows as [|x rows IH]; simpl; congruence.
Qed.

Lemma NoDup_map_inj {A K : Type} (f : A -> K) (l : list A) (a b : A) :
  NoDup (map f l) -> In a l -> In b l -> f a = f b -> a = b.
Proof.
  induction l as [|x l IH]; simpl; intros Hnd Ha Hb Hf; [tauto|].
  inversion Hnd as [|? ? Hx Hl]; subst.
  destruct Ha as [->|Ha], Hb as [->|Hb]; auto.
  - exfalso. apply Hx. rewrite Hf. now apply in_map.
  - exfalso. apply Hx. rewrite <- Hf. now apply in_map.
Qed.

Lemma hidden_not_selected uid db e :
  Db.Event.is_public e = false ->
  Db.uid_is uid (Db.Event.organizer_id e) = false ->
  ~ In e (Db.select_events uid db).
Proof.
  intros Hp Ho Hin. unfold Db.select_events in Hin.
  apply filter_In in Hin. destruct Hin as [_ H].
  unfold Db.events_select in H. rewrite Hp, Ho in H. discriminate.
Qed.

Lemma single_inl {A : Type} (l : list A) (x : A) : Db.single l = inl x -> l = [x].
Proof.
  destruct l as [|y [|z l]]; simpl; intros H; try discriminate.
  injection H as ->. reflexivity.
Qed.

(** What [select_event] returns is a row the caller may select, with the
    RSVPs and reviews that point at it. *)
Lemma select_event_inl uid id db d :
  EventDetails.select_event uid id db = inl d ->
  In (EventDetails.row d) (Db.select_events uid db)
  /\ Db.Event.id (EventDetails.row d) = id
  /\ EventDetails.rsvps d
     = filter (fun r => Db.Rsvp.event_id r =? id) (Db.rsvps db)
  /\ EventDetails.reviews d
     = filter (fun r => Db.Review.event_id r =? id) (Db.reviews db).
Proof.
  unfold EventDetails.select_event.
  destruct (Db.single _) as [e|err] eqn:E; [|discriminate].
  intros H. injection H as <-. apply single_inl in E.
  assert (In e (filter (fun e => Db.Event.id e =? id) (Db.select_events uid db)))
    as Hin by (rewrite E; now left).
  apply filter_In in Hin. destruct Hin as [Hin Hid]. apply Z.eqb_eq in Hid.
  unfold EventDetails.embed, Db.select_rsvps, Db.select_reviews,
    Db.rsvps_select, Db.reviews_select. simpl.
  rewrite !filter_true, Hid. auto.
Qed.

Lemma select_event_hidden uid db e :
  events_pk db ->
  In e (Db.events db) ->
  Db.Event.is_public e = false ->
  Db.uid_is uid (Db.Event.organizer_id e) = false ->
  EventDetails.select_event uid (Db.Event.id e) db = inr Db.no_single_row.
Proof.
  intros Hpk Hin Hp Ho.
  destruct (EventDetails.select_event uid (Db.Event.id e) db) as [d|err] eqn:E.
  - exfalso. apply select_event_inl in E. destruct E as (Hsel & Hid & _).
    assert (EventDetails.row d = e) as Hrow.
    { apply (NoDup_map_inj Db.Event.id (Db.events db)); auto.
      unfold Db.select_events in Hsel. apply filter_In in Hsel. tauto. }
    rewrite Hrow in Hsel. revert Hsel. now apply hidden_not_selected.
  - unfold EventDetails.select_event in E.
    destruct (Db.single _) as [x|err'] eqn:E'; [discriminate|].
    injection E as <-.
    unfold Db.single in E'.
    destruct (filter _ _) as [|y [|z l]]; try discriminate;
      injection E' as <-; reflexivity.
Qed.

Lemma select_event_absent uid id db :
  Db.has_event db id = false ->
  EventDetails.select_event uid id db = inr Db.no_single_row.
Proof.
  intros Hno.
  destruct (EventDetails.select_event uid id db) as [d|err] eqn:E.
  - exfalso. apply select_event_inl in E. destruct E as (Hsel & Hid & _).
    unfold Db.select_events in Hsel. apply filter_In in Hsel.
    assert (Db.has_event db id = true); [|congruence].
    apply existsb_exists. exists (EventDetails.row d).
    split; [tauto|]. now apply Z.eqb_eq.
  - unfold EventDetails.select_event in E.
    destruct (Db.single _) as [x|err'] eqn:E'; [discriminate|].
    injection E as <-.
    unfold Db.single in E'.
    destruct (filter _ _) as [|y [|z l]]; try discriminate;
      injection E' as <-; reflexivity.
Qed.

Lemma fetchEvent_failed uid id db pg :
  EventDetails.select_event uid id db = inr Db.no_single_row ->
  EventDetails.fetchEvent uid id db pg = (pg, load_failed).
Proof.
  intros H. unfold EventDetails.fetchEvent. rewrite H. reflexivity.
Qed.

(** C5, amended.  A private event is in the list of public upcoming
    events for no identity, its organizer included.  Looking it up by id
    as anyone but its organizer fails with the no-single-row error of the
    query, the toast "Failed to load event" and the way back to the
    list: exactly what the lookup of an id that no row has gives, so the
    refusal cannot be told from the absence. *)
Theorem C5_private_event_lookup :
  (forall uid now db e,
     Db.Event.is_public e = false ->
     ~ In e (Index.upcoming_rows uid now db)
     /\ ~ In e (map Index.row (Index.fetchEvents uid now db)))
  /\ (forall uid db pg e,
        events_pk db ->
        In e (Db.events db) ->
        Db.Event.is_public e = false ->
        Db.uid_is uid (Db.Event.organizer_id e) = false ->
        EventDetails.select_event uid (Db.Event.id e) db = inr Db.no_single_row
        /\ EventDetails.fetchEvent uid (Db.Event.id e) db pg = (pg, load_failed))
  /\ (forall uid db pg id,
        Db.has_event db id = false ->
        EventDetails.select_event uid id db = inr Db.no_single_row
        /\ EventDetails.fetchEvent uid id db pg = (pg, load_failed)).
Proof.
  split; [|split].
  - intros uid now db e Hp.
    assert (~ In e (Index.upcoming_rows uid now db)) as Hno.
    { intros Hin. apply upcoming_rows_In in Hin. destruct Hin as (_ & H & _).
      congruence. }
    split; [exact Hno|].
    unfold Index.fetchEvents. rewrite map_map. simpl. rewrite map_id. exact Hno.
  - intros uid db pg e Hpk Hin Hp Ho.
    pose proof (select_event_hidden uid db e Hpk Hin Hp Ho) as H.
    split; [exact H|]. now apply fetchEvent_failed.
  - intros uid db pg id Hno.
    pose proof (select_event_absent uid id db Hno) as H.
    split; [exact H|]. now apply fetchEvent_failed.
Qed.

Lemma db_private_pk : events_pk db_private.
Proof.
  unfold events_pk. simpl. constructor; [intros []|constructor].
Qed.

Lemma C5_private_event_lookup_witness :
  ~ In (event_of 20 false) (Index.upcoming_rows (Some 1) 0 db_private)
  /\ EventDetails.fetchEvent (Some 2) 20 db_private EventDetails.initial
     = (EventDetails.initial, load_failed)
  /\ EventDetails.fetchEvent (Some 2) 21 db_private EventDetails.initial
     = (EventDetails.initial, load_failed).
Proof.
  split; [|split].
  - apply (proj1 C5_private_event_lookup (Some 1) 0 db_private (event_of 20 false)).
    reflexivity.
  - apply (proj1 (proj2 C5_private_event_lookup) (Some 2) db_private
             EventDetails.initial (event_of 20 false)).
    + exact db_private_pk.
    + simpl. auto.
    + reflexivity.
    + reflexivity.
  - apply (proj2 (proj2 C5_private_event_lookup) (Some 2) db_private
             EventDetails.initial 21).
    reflexivity.
Defined.

(** C5 as stated fails: account 2 looks up the private event 20 of
    account 1, and gets what the lookup of the missing id 21 gives, error
    and effects alike. *)
Lemma C5_counterexample :
  In (event_of 20 false) (Db.events db_private)
  /\ Db.Event.is_public (event_of 20 false) = false
  /\ Db.Event.organizer_id (event_of 20 false) <> 2
  /\ Db.has_event db_private 21 = false
  /\ EventDetails.select_event (Some 2) 20 db_private
     = EventDetails.select_event (Some 2) 21 db_private
  /\ EventDetails.fetchEvent (Some 2) 20 db_private EventDetails.initial
     = EventDetails.fetchEvent (Some 2) 21 db_private EventDetails.initial.
Proof.
  repeat split; try reflexivity.
  - simpl. auto.
  - simpl. lia.
Qed.

(** C2, amended.  Every identity may select every RSVP row and every
    review row, those of private events included.  What is hidden from
    an identity that is not the organizer is the row of the private event
    itself; so the reads that reach RSVPs and reviews through an event
    (the objects [fetchEvent] and [fetchEvents] return) hold no RSVP and
    no review of such an event. *)
Theorem C2_row_visibility :
  (forall uid db,
     Db.select_rsvps uid db = Db.rsvps db
     /\ Db.select_reviews uid db = Db.reviews db)
  /\ (forall uid db e,
        Db.Event.is_public e = false ->
        Db.uid_is uid (Db.Event.organizer_id e) = false ->
        ~ In e (Db.select_events uid db))
  /\ (forall uid db e id d,
        events_pk db ->
        In e (Db.events db) ->
        Db.Event.is_public e = false ->
        Db.uid_is uid (Db.Event.organizer_id e) = false ->
        EventDetails.select_event uid id db = inl d ->
        (forall r, In r (EventDetails.rsvps d) -> Db.Rsvp.event_id r <> Db.Event.id e)
        /\ (forall r, In r (EventDetails.reviews d) ->
                      Db.Review.event_id r <> Db.Event.id e))
  /\ (forall uid now db e it,
        Db.Event.is_public e = false ->
        events_pk db ->
        In e (Db.events db) ->
        In it (Index.fetchEvents uid now db) ->
        forall r, In r (Index.rsvps it) -> Db.Rsvp.event_id r <> Db.Event.id e).
Proof.
  split; [|split; [|split]].
  - intros uid db. unfold Db.select_rsvps, Db.select_reviews,
      Db.rsvps_select, Db.reviews_select.
    rewrite !filter_true. auto.
  - intros uid db e. apply hidden_not_selected.
  - intros uid db e id d Hpk Hin Hp Ho Hd.
    assert (id <> Db.Event.id e) as Hne.
    { intros ->. rewrite (select_event_hidden uid db e Hpk Hin Hp Ho) in Hd.
      discriminate. }
    apply select_event_inl in Hd. destruct Hd as (_ & _ & -> & ->).
    split; intros r Hr; apply filter_In in Hr; destruct Hr as [_ Hr];
      apply Z.eqb_eq in Hr; congruence.
  - intros uid now db e it Hp Hpk Hin Hit r Hr.
    unfold Index.fetchEvents in Hit. apply in_map_iff in Hit.
    destruct Hit as [x [<- Hx]].
    apply upcoming_rows_In in Hx. destruct Hx as (Hxin & Hxp & _).
    simpl in Hr. apply filter_In in Hr. destruct Hr as [_ Hr].
    apply Z.eqb_eq in Hr. rewrite Hr. intros Heq.
    assert (x = e) by (apply (NoDup_map_inj Db.Event.id (Db.events db)); auto).
    congruence.
Qed.

Lemma C2_row_visibility_witness :
  ~ In (event_of 20 false) (Db.select_events (Some 2) db_private)
  /\ (forall it, In it (Index.fetchEvents (Some 2) 0 db_private) ->
      forall r, In r (Index.rsvps it) -> Db.Rsvp.event_id r <> 20).
Proof.
  split.
  - apply (proj1 (proj2 C2_row_visibility) (Some 2) db_private (event_of 20 false));
      reflexivity.
  - intros it Hit.
    apply (proj2 (proj2 (proj2 C2_row_visibility)) (Some 2) 0 db_private
             (event_of 20 false) it).
    + reflexivity.
    + exact db_private_pk.
    + simpl. auto.
    + exact Hit.
Defined.

(** C2 as stated fails: account 2 is not the organizer of the private
    event 20, and its select on [rsvps] and on [reviews] returns the rows
    of that event. *)
Lemma C2_counterexample :
  In (event_of 20 false) (Db.events db_private)
  /\ Db.Event.is_public (event_of 20 false) = false
  /\ Db.Event.organizer_id (event_of 20 false) <> 2
  /\ In (rsvp_of 30 20 3 Db.going) (Db.select_rsvps (Some 2) db_private)
  /\ In (review_of 40 20 3 5) (Db.select_reviews (Some 2) db_private).
Proof.
  repeat split; try reflexivity; simpl; auto. lia.
Qed.

(* ===================================================================== *)
(** * Answering an invitation *)
(* ===================================================================== *)

Lemma find_filter {A : Type} (p q : A -> bool) (l : list A) :
  find p (filter q l) = find (fun x => q x && p x) l.
Proof.
  induction l as [|x l IH]; simpl; [reflexivity|].
  destruct (q x); simpl; [|exact IH].
  destruct (p x); [reflexivity|exact IH].
Qed.

Lemma find_ext {A : Type} (p q : A -> bool) (l : list A) :
  (forall x, p x = q x) -> find p l = find q l.
Proof.
  intros H. induction l as [|x l IH]; simpl; [reflexivity|].
  rewrite H, IH. reflexivity.
Qed.

Lemma find_In_Some {A : Type} (p : A -> bool) (l : list A) (x : A) :
  In x l -> p x = true -> exists y, find p l = Some y.
Proof.
  induction l as [|a l IH]; simpl; intros Hin Hp; [tauto|].
  destruct (p a) eqn:E; [eauto|].
  destruct Hin as [->|Hin]; [congruence|auto].
Qed.

Lemma find_existsb {A : Type} (p : A -> bool) (l : list A) :
  existsb p l = match find p l with Some _ => true | None => false end.
Proof.
  induction l as [|a l IH]; simpl; [reflexivity|].
  destruct (p a); simpl; auto.
Qed.

Lemma rsvp_of_pair_spec id u r :
  rsvp_of_pair id u r = true <-> Db.Rsvp.key r = (id, u).
Proof. apply key_eqb_eq. Qed.

Lemma rsvp_of_pair_set_status id u s now r :
  rsvp_of_pair id u (Db.set_status s now r) = rsvp_of_pair id u r.
Proof. reflexivity. Qed.

(** The update of [handleRsvp] touches the rows of the pair, all of them
    and no other. *)
Lemma update_rsvp_rows u now id s db :
  Db.rsvps (Db.update_rsvp_status (Some u) now id u s db)
  = map (fun r => if rsvp_of_pair id u r then Db.set_status s now r else r)
        (Db.rsvps db).
Proof.
  unfold Db.update_rsvp_status. simpl. apply map_ext. intros r.
  unfold rsvp_of_pair, Db.key_eqb, Db.Rsvp.key, Db.rsvps_update, Db.uid_is. simpl.
  destruct (Z.eqb_spec (Db.Rsvp.event_id r) id); simpl; [|reflexivity].
  destruct (Z.eqb_spec (Db.Rsvp.user_id r) u) as [->|]; simpl; [|reflexivity].
  rewrite Z.eqb_refl. reflexivity.
Qed.

Lemma find_pair_after_update id u s now rows :
  find (rsvp_of_pair id u)
       (map (fun r => if rsvp_of_pair id u r then Db.set_status s now r else r) rows)
  = option_map (Db.set_status s now) (find (rsvp_of_pair id u) rows).
Proof.
  induction rows as [|r rows IH]; simpl; [reflexivity|].
  destruct (rsvp_of_pair id u r) eqn:E.
  - rewrite rsvp_of_pair_set_status, E. reflexivity.
  - rewrite E. exact IH.
Qed.

(** A successful load sets [userRsvp] from the table. *)
Lemma fetchEvent_in_sync u id db pg d :
  EventDetails.select_event (Some u) id db = inl d ->
  in_sync u id db (fst (EventDetails.fetchEvent (Some u) id db pg)).
Proof.
  intros Hd. unfold EventDetails.fetchEvent. rewrite Hd.
  unfold in_sync. simpl.
  apply select_event_inl in Hd. destruct Hd as (_ & _ & -> & _).
  rewrite find_filter. reflexivity.
Qed.

Lemma handleRsvp_update u id now newid s db pg old :
  EventDetails.userRsvp pg = Some old ->
  let db' := Db.update_rsvp_status (Some u) now id u s db in
  let pg1 := {| EventDetails.event := EventDetails.event pg;
                EventDetails.userRsvp := Some s;
                EventDetails.rating := EventDetails.rating pg;
                EventDetails.comment := EventDetails.comment pg |} in
  EventDetails.handleRsvp (Some u) id now newid s db pg
  = (db', fst (EventDetails.fetchEvent (Some u) id db' pg1),
     toast_success ("RSVP updated to: " ++ EventDetails.status_name s)
     :: snd (EventDetails.fetchEvent (Some u) id db' pg1)).
Proof.
  intros Hold db' pg1. unfold EventDetails.handleRsvp. rewrite Hold.
  fold db'. fold pg1.
  destruct (EventDetails.fetchEvent (Some u) id db' pg1). reflexivity.
Qed.

Lemma in_sync_after_write u id db' pg1 s :
  EventDetails.userRsvp pg1 = Some s ->
  option_map Db.Rsvp.status (find (rsvp_of_pair id u) (Db.rsvps db')) = Some s ->
  in_sync u id db' (fst (EventDetails.fetchEvent (Some u) id db' pg1)).
Proof.
  intros Hpg Hrow.
  destruct (EventDetails.select_event (Some u) id db') as [d|err] eqn:E.
  - eapply fetchEvent_in_sync; eauto.
  - unfold EventDetails.fetchEvent. rewrite E. simpl.
    unfold in_sync. congruence.
Qed.

Lemma insert_rsvp_fresh u r db :
  Db.Rsvp.user_id r = u ->
  existsb (fun x => Db.Rsvp.id x =? Db.Rsvp.id r) (Db.rsvps db) = false ->
  existsb (fun x => Db.key_eqb (Db.Rsvp.key x) (Db.Rsvp.key r)) (Db.rsvps db) = false ->
  Db.has_event db (Db.Rsvp.event_id r) = true ->
  Db.has_profile db u = true ->
  Db.insert_rsvp (Some u) r db
  = inl {| Db.profiles := Db.profiles db; Db.events := Db.events db;
           Db.rsvps := Db.rsvps db ++ [r]; Db.reviews := Db.reviews db |}.
Proof.
  intros Hu Hid Hkey He Hp. unfold Db.insert_rsvp.
  unfold Db.rsvps_insert. rewrite Hu, uid_is_refl. simpl negb. cbv iota.
  rewrite Hid, Hkey, He, Hp. reflexivity.
Qed.

Lemma find_snoc_None {A : Type} (p : A -> bool) (l : list A) (x : A) :
  find p l = None -> find p (l ++ [x]) = find p [x].
Proof.
  induction l as [|a l IH]; simpl; [reflexivity|].
  destruct (p a); [discriminate|exact IH].
Qed.

Lemma existsb_pair_map id u s now rows :
  existsb (rsvp_of_pair id u)
    (map (fun r => if rsvp_of_pair id u r then Db.set_status s now r else r) rows)
  = existsb (rsvp_of_pair id u) rows.
Proof.
  rewrite !find_existsb, find_pair_after_update.
  destruct (find _ rows); reflexivity.
Qed.

(** From a page that agrees with the table, [handleRsvp] is the upsert:
    it succeeds when the pair has a row, or when a new row can be
    inserted, and then the table is the upserted one and the page agrees
    with it again. *)
Lemma handleRsvp_upsert u id now newid s db pg :
  in_sync u id db pg ->
  existsb (rsvp_of_pair id u) (Db.rsvps db) = true
  \/ (Db.has_event db id = true /\ Db.has_profile db u = true
      /\ existsb (fun x => Db.Rsvp.id x =? newid) (Db.rsvps db) = false) ->
  exists db' pg' effs,
    EventDetails.handleRsvp (Some u) id now newid s db pg
    = (db', pg',
       toast_success ("RSVP updated to: " ++ EventDetails.status_name s) :: effs)
    /\ Db.rsvps db' = upsert_rsvp u id now newid s (Db.rsvps db)
    /\ Db.events db' = Db.events db
    /\ Db.reviews db' = Db.reviews db
    /\ Db.profiles db' = Db.profiles db
    /\ in_sync u id db' pg'
    /\ existsb (rsvp_of_pair id u) (Db.rsvps db') = true.
Proof.
  intros Hsync Hcan. unfold in_sync in Hsync.
  destruct (find (rsvp_of_pair id u) (Db.rsvps db)) as [r0|] eqn:Hfind.
  - (* the pair has a row: the page knows it, and the update runs *)
    simpl in Hsync.
    assert (existsb (rsvp_of_pair id u) (Db.rsvps db) = true) as Hex
      by (rewrite find_existsb, Hfind; reflexivity).
    rewrite (handleRsvp_update u id now newid s db pg _ Hsync).
    do 3 eexists. split; [reflexivity|].
    rewrite update_rsvp_rows. unfold upsert_rsvp. rewrite Hex.
    split; [reflexivity|]. do 3 (split; [reflexivity|]).
    split.
    + apply in_sync_after_write with (s := s); [reflexivity|].
      rewrite update_rsvp_rows, find_pair_after_update, Hfind. reflexivity.
    + rewrite existsb_pair_map. exact Hex.
  - (* no row: the page holds nothing, and the insert runs *)
    simpl in Hsync.
    assert (existsb (rsvp_of_pair id u) (Db.rsvps db) = false) as Hex
      by (rewrite find_existsb, Hfind; reflexivity).
    destruct Hcan as [Hcan|(He & Hp & Hid)]; [congruence|].
    unfold EventDetails.handleRsvp. rewrite Hsync.
    rewrite (insert_rsvp_fresh u); auto.
    match goal with
    | |- context [EventDetails.fetchEvent ?a ?b ?c ?d] =>
        pose proof (in_sync_after_write u id c d s) as Hs;
        destruct (EventDetails.fetchEvent a b c d) as [pg2 effs] eqn:Ef
    end.
    do 3 eexists. split; [reflexivity|]. simpl.
    unfold upsert_rsvp. rewrite Hex.
    split; [reflexivity|]. do 3 (split; [reflexivity|]).
    split.
    + simpl in Hs. apply Hs; [reflexivity|].
      rewrite find_snoc_None by exact Hfind. simpl.
      unfold rsvp_of_pair, Db.key_eqb. simpl. rewrite !Z.eqb_refl. reflexivity.
    + rewrite existsb_app. simpl.
      unfold rsvp_of_pair at 2. unfold Db.key_eqb. simpl. rewrite !Z.eqb_refl.
      simpl. apply orb_true_r.
Qed.

Lemma unique_pair_count id u rows :
  NoDup (map Db.Rsvp.key rows) ->
  existsb (rsvp_of_pair id u) rows = true ->
  List.length (filter (rsvp_of_pair id u) rows) = 1%nat.
Proof.
  induction rows as [|r rows IH]; simpl; intros Hnd Hex; [discriminate|].
  inversion Hnd as [|? ? Hr Hrows]; subst.
  destruct (rsvp_of_pair id u r) eqn:E; simpl.
  - f_equal. apply rsvp_of_pair_spec in E.
    destruct (filter (rsvp_of_pair id u) rows) as [|x l] eqn:F; [reflexivity|].
    exfalso. apply Hr.
    assert (In x (filter (rsvp_of_pair id u) rows)) as Hx by (rewrite F; now left).
    apply filter_In in Hx. destruct Hx as [Hin Hp].
    apply rsvp_of_pair_spec in Hp. rewrite E, <- Hp. now apply in_map.
  - auto.
Qed.

Lemma pair_rows_status id u s now rows r :
  In r (map (fun r => if rsvp_of_pair id u r then Db.set_status s now r else r) rows) ->
  rsvp_of_pair id u r = true -> Db.Rsvp.status r = s.
Proof.
  intros Hin Hp. apply in_map_iff in Hin. destruct Hin as [x [Hx Hin]].
  destruct (rsvp_of_pair id u x) eqn:E; subst r.
  - reflexivity.
  - congruence.
Qed.

Lemma same_status_rows id u s now rows :
  (forall r, In r rows -> rsvp_of_pair id u r = true -> Db.Rsvp.status r = s) ->
  Forall2 same_but_updated_at rows
    (map (fun r => if rsvp_of_pair id u r then Db.set_status s now r else r) rows).
Proof.
  induction rows as [|r rows IH]; simpl; intros H; constructor.
  - destruct (rsvp_of_pair id u r) eqn:E.
    + unfold same_but_updated_at. simpl. rewrite (H r); auto.
    + unfold same_but_updated_at. auto.
  - apply IH. intros x Hx. apply H. now right.
Qed.

(** A call from a page that agrees with the table ends in a page that
    agrees with the table it leaves. *)
Lemma handleRsvp_keeps_sync u id now newid s db pg :
  in_sync u id db pg ->
  in_sync u id
    (fst (fst (EventDetails.handleRsvp (Some u) id now newid s db pg)))
    (snd (fst (EventDetails.handleRsvp (Some u) id now newid s db pg))).
Proof.
  intros Hsync.
  destruct (existsb (rsvp_of_pair id u) (Db.rsvps db)) eqn:Hex.
  - destruct (handleRsvp_upsert u id now newid s db pg Hsync (or_introl Hex))
      as (db' & pg' & effs & -> & _ & _ & _ & _ & Hs & _).
    exact Hs.
  - assert (EventDetails.userRsvp pg = None) as Hnone.
    { unfold in_sync in Hsync. rewrite find_existsb in Hex.
      destruct (find _ _); [discriminate|exact Hsync]. }
    unfold EventDetails.handleRsvp. rewrite Hnone.
    destruct (Db.insert_rsvp _ _ db) as [db'|err] eqn:E; [|exact Hsync].
    match goal with
    | |- context [EventDetails.fetchEvent ?a ?b ?c ?d] =>
        pose proof (in_sync_after_write u id c d s eq_refl) as Hs;
        destruct (EventDetails.fetchEvent a b c d) as [pg2 effs]
    end.
    simpl in *. apply Hs.
    apply insert_rsvp_inl in E. destruct E as (_ & -> & _).
    rewrite find_existsb in Hex.
    rewrite find_snoc_None by (destruct (find _ _); [discriminate|reflexivity]).
    simpl. unfold rsvp_of_pair, Db.key_eqb. simpl. rewrite !Z.eqb_refl. reflexivity.
Qed.

(** A page that holds a status for a pair without a row runs the
    update, which finds nothing to change: no row appears. *)
Lemma handleRsvp_row_gone u id now newid s db pg old :
  EventDetails.userRsvp pg = Some old ->
  existsb (rsvp_of_pair id u) (Db.rsvps db) = false ->
  Db.rsvps (fst (fst (EventDetails.handleRsvp (Some u) id now newid s db pg)))
  = Db.rsvps db.
Proof.
  intros Hold Hex.
  rewrite (handleRsvp_update u id now newid s db pg old Hold). simpl fst.
  rewrite update_rsvp_rows.
  induction (Db.rsvps db) as [|r rows IH]; simpl in *; [reflexivity|].
  apply orb_false_iff in Hex. destruct Hex as [Hr Hrows].
  rewrite Hr, (IH Hrows). reflexivity.
Qed.

(** A page that does not know the row of the pair tries the insert, and
    the unique index refuses it: the row stays as it is. *)
Lemma handleRsvp_stale_page u id now newid s db pg :
  EventDetails.userRsvp pg = None ->
  existsb (rsvp_of_pair id u) (Db.rsvps db) = true ->
  EventDetails.handleRsvp (Some u) id now newid s db pg
  = (db, pg, [toast_error (text "Failed to update RSVP")]).
Proof.
  intros Hnone Hex. unfold EventDetails.handleRsvp. rewrite Hnone.
  unfold Db.insert_rsvp, Db.rsvps_insert. simpl Db.Rsvp.user_id.
  rewrite uid_is_refl. simpl negb. cbv iota.
  destruct (existsb (fun x => Db.Rsvp.id x =? _) _); [reflexivity|].
  change (existsb _ (Db.rsvps db)) with (existsb (rsvp_of_pair id u) (Db.rsvps db)).
  rewrite Hex. reflexivity.
Qed.

(** C4, amended.  In every reachable state a pair (event_id, user_id)
    has at most one RSVP row.  [handleRsvp] chooses between update and
    insert by the page's [userRsvp], not by the table.  The page load
    leaves [userRsvp] in agreement with the table; from a page that
    agrees, a submission for a pair that has a row updates the status of
    that row and adds none (one row for the pair, before as after), a
    submission for a pair without a row inserts one, and either way the
    page agrees with the table it leaves; submitting the status the row
    already has changes nothing but [updated_at].  From a page that does
    not know the row of the pair, the insert is tried and refused by the
    unique index: the toast is "Failed to update RSVP" and the row keeps
    its status.  From a page that holds a status for a pair without a
    row, the update changes nothing and no row is added. *)
Theorem C4_rsvp_upsert :
  (forall db, Db.reachable db -> Db.rsvps_unique db)
  /\ (forall u id db pg d,
        EventDetails.select_event (Some u) id db = inl d ->
        in_sync u id db (fst (EventDetails.fetchEvent (Some u) id db pg)))
  /\ (forall u id now newid s db pg,
        EventDetails.userRsvp pg = None ->
        existsb (rsvp_of_pair id u) (Db.rsvps db) = true ->
        EventDetails.handleRsvp (Some u) id now newid s db pg
        = (db, pg, [toast_error (text "Failed to update RSVP")]))
  /\ (forall u id now newid s db pg,
        Db.rsvps_unique db ->
        in_sync u id db pg ->
        existsb (rsvp_of_pair id u) (Db.rsvps db) = true ->
        exists db' pg' effs,
          EventDetails.handleRsvp (Some u) id now newid s db pg
          = (db', pg', rsvp_toast s :: effs)
          /\ Db.rsvps db'
             = map (fun r => if rsvp_of_pair id u r then Db.set_status s now r else r)
                   (Db.rsvps db)
          /\ List.length (Db.rsvps db') = List.length (Db.rsvps db)
          /\ List.length (filter (rsvp_of_pair id u) (Db.rsvps db')) = 1%nat
          /\ (forall r, In r (Db.rsvps db') -> rsvp_of_pair id u r = true ->
                        Db.Rsvp.status r = s)
          /\ ((forall r, In r (Db.rsvps db) -> rsvp_of_pair id u r = true ->
                         Db.Rsvp.status r = s) ->
              Forall2 same_but_updated_at (Db.rsvps db) (Db.rsvps db'))
          /\ Db.rsvps_unique db'
          /\ in_sync u id db' pg')
  /\ (forall u id now newid s db pg,
        in_sync u id db pg ->
        existsb (rsvp_of_pair id u) (Db.rsvps db) = false ->
        Db.has_event db id = true ->
        Db.has_profile db u = true ->
        existsb (fun x => Db.Rsvp.id x =? newid) (Db.rsvps db) = false ->
        exists db' pg' effs,
          EventDetails.handleRsvp (Some u) id now newid s db pg
          = (db', pg', rsvp_toast s :: effs)
          /\ Db.rsvps db'
             = Db.rsvps db
               ++ [ {| Db.Rsvp.id := newid; Db.Rsvp.event_id := id;
                       Db.Rsvp.user_id := u; Db.Rsvp.status := s;
                       Db.Rsvp.created_at := now; Db.Rsvp.updated_at := now |} ]
          /\ existsb (rsvp_of_pair id u) (Db.rsvps db') = true
          /\ in_sync u id db' pg')
  /\ (forall u id now newid s db pg old,
        EventDetails.userRsvp pg = Some old ->
        existsb (rsvp_of_pair id u) (Db.rsvps db) = false ->
        Db.rsvps (fst (fst (EventDetails.handleRsvp (Some u) id now newid s db pg)))
        = Db.rsvps db).
Proof.
  split; [|split; [|split; [|split; [|split]]]].
  - intros db H. apply reachable_constraints in H. apply H.
  - apply fetchEvent_in_sync.
  - apply handleRsvp_stale_page.
  - intros u id now newid s db pg Hu Hsync Hex.
    destruct (handleRsvp_upsert u id now newid s db pg Hsync (or_introl Hex))
      as (db' & pg' & effs & Hrun & Hrows & _ & _ & _ & Hsync' & Hex').
    unfold upsert_rsvp in Hrows. rewrite Hex in Hrows.
    assert (Db.rsvps_unique db') as Hu'.
    { unfold Db.rsvps_unique in *. rewrite Hrows, map_map.
      erewrite map_ext; [exact Hu|].
      intros r. simpl. destruct (rsvp_of_pair id u r); reflexivity. }
    exists db', pg', effs. split; [exact Hrun|]. split; [exact Hrows|].
    split; [rewrite Hrows; apply length_map|].
    split; [apply unique_pair_count; auto|].
    split; [intros r; rewrite Hrows; apply pair_rows_status|].
    split; [intros Hs; rewrite Hrows; now apply same_status_rows|].
    split; assumption.
  - intros u id now newid s db pg Hsync Hex He Hp Hid.
    destruct (handleRsvp_upsert u id now newid s db pg Hsync
                (or_intror (conj He (conj Hp Hid))))
      as (db' & pg' & effs & Hrun & Hrows & _ & _ & _ & Hsync' & Hex').
    unfold upsert_rsvp in Hrows. rewrite Hex in Hrows.
    exists db', pg', effs. auto.
  - apply handleRsvp_row_gone.
Qed.

Lemma db_answered_unique : Db.rsvps_unique db_answered.
Proof.
  unfold Db.rsvps_unique. simpl. constructor; [intros []|constructor].
Qed.

Lemma C4_rsvp_upsert_witness :
  in_sync 2 10 db_answered page_answered
  /\ (exists db' pg' effs,
        EventDetails.handleRsvp (Some 2) 10 60 31 Db.going db_answered page_answered
        = (db', pg', rsvp_toast Db.going :: effs)
        /\ Db.rsvps db' = [Db.set_status Db.going 60 (rsvp_of 30 10 2 Db.maybe)]
        /\ in_sync 2 10 db' pg')
  /\ EventDetails.handleRsvp (Some 2) 10 60 31 Db.going db_answered page_unaware
     = (db_answered, page_unaware, [toast_error (text "Failed to update RSVP")]).
Proof.
  assert (in_sync 2 10 db_answered page_answered) as Hsync.
  { apply (proj1 (proj2 C4_rsvp_upsert) 2 10 db_answered EventDetails.initial
             (EventDetails.embed (Some 2) db_answered (event_of 10 true))).
    reflexivity. }
  split; [exact Hsync|]. split.
  - destruct (proj1 (proj2 (proj2 (proj2 C4_rsvp_upsert))) 2 10 60 31 Db.going
                db_answered page_answered db_answered_unique Hsync eq_refl)
      as (db' & pg' & effs & Hrun & Hrows & _ & _ & _ & _ & _ & Hs).
    exists db', pg', effs. auto.
  - apply (proj1 (proj2 (proj2 C4_rsvp_upsert)) 2 10 60 31 Db.going
             db_answered page_unaware); reflexivity.
Defined.

(** C4 as stated fails: account 2 has answered event 10 with "maybe"
    from elsewhere after this page was loaded; its submission of "going"
    is an insert, which the unique index refuses, and the row keeps
    "maybe". *)
Lemma C4_counterexample :
  Db.rsvps db_answered = [rsvp_of 30 10 2 Db.maybe]
  /\ EventDetails.userRsvp page_unaware = None
  /\ EventDetails.handleRsvp (Some 2) 10 60 31 Db.going db_answered page_unaware
     = (db_answered, page_unaware, [toast_error (text "Failed to update RSVP")])
  /\ map Db.Rsvp.status
       (Db.rsvps
          (fst (fst (EventDetails.handleRsvp (Some 2) 10 60 31 Db.going
                       db_answered page_unaware))))
     = [Db.maybe].
Proof. repeat split; reflexivity. Qed.

(* ===================================================================== *)
(** * The list of public upcoming events and its search *)
(* ===================================================================== *)

Lemma startsWith_spec s t : Js.startsWith s t = true <-> exists after, s = t ++ after.
Proof.
  revert s. induction t as [|b t IH]; intros s.
  - split; [intros _; exists s; reflexivity|]. intros _. destruct s; reflexivity.
  - destruct s as [|a s]; simpl.
    + split; [intros H; discriminate H|]. intros [after H]. simpl in H. discriminate H.
    + rewrite andb_true_iff, N.eqb_eq, IH. split.
      * intros [-> [after ->]]. eauto.
      * intros [after H]. injection H as -> ->. eauto.
Qed.

Lemma includes_unfold s t :
  Js.includes s t
  = Js.startsWith s t
    || match s with
       | [] => false
       | _ :: s' => Js.includes s' t
       end.
Proof. destruct s; reflexivity. Qed.

Lemma includes_spec s t : Js.includes s t = true <-> occurs_in t s.
Proof.
  unfold occurs_in. induction s as [|a s IH]; rewrite includes_unfold.
  - rewrite orb_false_r, startsWith_spec. split.
    + intros [after H]. exists [], after. exact H.
    + intros [before [after H]].
      destruct before; [eauto|discriminate].
  - rewrite orb_true_iff, IH, (startsWith_spec (a :: s) t). split.
    + intros [[after H]|[before [after H]]].
      * exists [], after. exact H.
      * exists (a :: before), after. simpl. congruence.
    + intros [before [after H]]. destruct before as [|b before].
      * left. eauto.
      * right. injection H as -> ->. eauto.
Qed.

Lemma matches_spec toLowerCase q e :
  Index.matches toLowerCase q e = true <-> matches_text toLowerCase q e.
Proof.
  unfold Index.matches, matches_text.
  rewrite !orb_true_iff, !includes_spec. tauto.
Qed.

Lemma filter_filter {A : Type} (p q : A -> bool) (l : list A) :
  filter p (filter q l) = filter (fun x => q x && p x) l.
Proof.
  induction l as [|x l IH]; simpl; [reflexivity|].
  destruct (q x); simpl; [|exact IH].
  destruct (p x); simpl; congruence.
Qed.

Lemma upcoming_rows_perm uid now db :
  Permutation (Index.upcoming_rows uid now db)
              (filter (public_upcoming now) (Db.events db)).
Proof.
  unfold Index.upcoming_rows, Db.select_events.
  rewrite order_by_start_perm, !filter_filter.
  erewrite filter_ext; [reflexivity|].
  intros e. unfold Db.events_select, public_upcoming.
  destruct (Db.Event.is_public e); simpl; [reflexivity|].
  rewrite andb_false_r. reflexivity.
Qed.

Lemma fetchEvents_rows uid now db :
  map Index.row (Index.fetchEvents uid now db) = Index.upcoming_rows uid now db.
Proof.
  unfold Index.fetchEvents. rewrite map_map. simpl. apply map_id.
Qed.

Lemma subseq_map {A B : Type} (f : A -> B) (l1 l2 : list A) :
  subseq l1 l2 -> subseq (map f l1) (map f l2).
Proof.
  induction 1; simpl; now constructor.
Qed.

(** C8.  The list holds exactly the event rows with [is_public = true]
    and [start_time >= now] (each as often as the table has it), in
    ascending order of [start_time].  The search keeps the elements whose
    lower-cased title, description or location contains the lower-cased
    text, and only those, in the order of the list. *)
Theorem C8_list_public_upcoming :
  forall uid now db,
    Permutation (map Index.row (Index.fetchEvents uid now db))
                (filter (public_upcoming now) (Db.events db))
    /\ StronglySorted by_start (map Index.row (Index.fetchEvents uid now db))
    /\ forall toLowerCase searchQuery,
         let shown :=
           Index.filteredEvents toLowerCase searchQuery (Index.fetchEvents uid now db) in
         (forall it,
            In it shown
            <-> In it (Index.fetchEvents uid now db)
                /\ matches_text toLowerCase searchQuery (Index.row it))
         /\ subseq shown (Index.fetchEvents uid now db)
         /\ StronglySorted by_start (map Index.row shown).
Proof.
  intros uid now db. rewrite fetchEvents_rows.
  split; [apply upcoming_rows_perm|].
  split; [apply order_by_start_sorted|].
  intros toLowerCase q shown.
  assert (subseq shown (Index.fetchEvents uid now db)) as Hsub
    by apply subseq_filter.
  split; [|split].
  - intros it. unfold shown, Index.filteredEvents.
    rewrite filter_In, matches_spec. tauto.
  - exact Hsub.
  - apply subseq_sorted with (l2 := map Index.row (Index.fetchEvents uid now db)).
    + now apply subseq_map.
    + rewrite fetchEvents_rows. apply order_by_start_sorted.
Qed.

(** The list at instant 50, for its organizer: the two public events,
    the earlier first; the search for "JAZZ" keeps the one it names. *)
Lemma listing_example :
  map Index.row (Index.fetchEvents (Some 1) 50 db_listing)
  = [event_at 12 "Morning Run" 100 true; event_at 11 "Jazz Night" 300 true]
  /\ map Index.row
       (Index.filteredEvents Index.ascii_toLowerCase (Js.str "JAZZ")
          (Index.fetchEvents (Some 1) 50 db_listing))
     = [event_at 11 "Jazz Night" 300 true]
  /\ map Index.row (Index.fetchEvents (Some 1) 150 db_listing)
     = [event_at 11 "Jazz Night" 300 true].
Proof. repeat split; reflexivity. Qed.

(* ===================================================================== *)
(** * The trend series *)
(* ===================================================================== *)

Lemma days_from_In start n day :
  In day (Trends.days_from start n) <-> start <= day < start + Z.of_nat n.
Proof.
  revert start. induction n as [|n IH]; intros start; simpl Trends.days_from.
  - simpl. lia.
  - simpl In. rewrite IH. lia.
Qed.

Lemma days_from_sorted start n : StronglySorted Z.lt (Trends.days_from start n).
Proof.
  revert start. induction n as [|n IH]; intros start; simpl; constructor.
  - apply IH.
  - apply Forall_forall. intros day Hday. apply days_from_In in Hday. lia.
Qed.

Lemma days_from_length start n : List.length (Trends.days_from start n) = n.
Proof.
  revert start. induction n as [|n IH]; intros start; simpl; auto.
Qed.

Lemma count_on_none stamps day :
  (forall t, In t stamps -> Trends.day_of t <> day) ->
  Trends.count_on day stamps = 0.
Proof.
  unfold Trends.count_on. induction stamps as [|t l IH]; simpl; intros Hnone.
  - reflexivity.
  - destruct (Z.eqb_spec (Trends.day_of t) day) as [Heq|_].
    + exfalso. apply (Hnone t); [now left|exact Heq].
    + apply IH. intros x Hx. apply Hnone. now right.
Qed.

(** C9.  Over the model of [trends]: the series has one bucket for each
    day of [[start_date, end_date]] and no other, in ascending order of
    the day; the count of a bucket is the number of timestamps that fall
    in its day, 0 when there is none.  With one event in the course of
    2024-01-02, the series from 2024-01-01 to 2024-01-03 is (01-01, 0),
    (01-02, 1), (01-03, 0). *)
Theorem C9_trends :
  forall start_date end_date stamps,
    map fst (Trends.trends start_date end_date stamps)
    = Trends.days_from start_date (Z.to_nat (end_date - start_date + 1))
    /\ List.length (Trends.trends start_date end_date stamps)
       = Z.to_nat (end_date - start_date + 1)
    /\ StronglySorted Z.lt (map fst (Trends.trends start_date end_date stamps))
    /\ (forall day,
          start_date <= day <= end_date <->
          In (day, Trends.count_on day stamps)
             (Trends.trends start_date end_date stamps))
    /\ (forall day n,
          In (day, n) (Trends.trends start_date end_date stamps) ->
          n = Trends.count_on day stamps)
    /\ (forall day,
          (forall t, In t stamps -> Trends.day_of t <> day) ->
          Trends.count_on day stamps = 0)
    /\ (forall t,
          Trends.day_of t = Trends.ymd 2024 1 2 ->
          Trends.trends (Trends.ymd 2024 1 1) (Trends.ymd 2024 1 3) [t]
          = [(Trends.ymd 2024 1 1, 0); (Trends.ymd 2024 1 2, 1);
             (Trends.ymd 2024 1 3, 0)]).
Proof.
  intros s e stamps.
  assert (map fst (Trends.trends s e stamps)
          = Trends.days_from s (Z.to_nat (e - s + 1))) as Hdays.
  { unfold Trends.trends. rewrite map_map. simpl. apply map_id. }
  split; [exact Hdays|].
  split; [unfold Trends.trends; now rewrite length_map, days_from_length|].
  split; [rewrite Hdays; apply days_from_sorted|].
  split; [|split; [|split]].
  - intros day. unfold Trends.trends. rewrite in_map_iff. split.
    + intros H. exists day. split; [reflexivity|]. apply days_from_In. lia.
    + intros [d [Hd Hin]]. injection Hd as -> _. apply days_from_In in Hin. lia.
  - intros day n Hin. unfold Trends.trends in Hin. apply in_map_iff in Hin.
    destruct Hin as [d [Hd _]]. injection Hd as -> <-. reflexivity.
  - intros day. apply count_on_none.
  - intros t Ht. unfold Trends.trends, Trends.count_on. simpl. rewrite Ht.
    reflexivity.
Qed.

Lemma C9_trends_witness :
  Trends.trends (Trends.ymd 2024 1 1) (Trends.ymd 2024 1 3)
    [Trends.ymd 2024 1 2 * Trends.ms_per_day + 36000000]
  = [(Trends.ymd 2024 1 1, 0); (Trends.ymd 2024 1 2, 1); (Trends.ymd 2024 1 3, 0)].
Proof.
  apply (proj2 (proj2 (proj2 (proj2 (proj2 (proj2
           (C9_trends 0 0 []))))))
           (Trends.ymd 2024 1 2 * Trends.ms_per_day + 36000000)).
  reflexivity.
Defined.

(* ===================================================================== *)
(** * The average rating *)
(* ===================================================================== *)

(** On every pair of a length up to 60 and a sum of ratings of that
    length, the division of the model is the division of [SpecFloat]. *)
Lemma fdiv_agrees_SpecFloat :
  forallb (fun n => forallb (fun s => fdiv_agrees s n) (rating_sums n))
          (map Z.of_nat (seq 1 60)) = true.
Proof. vm_compute. reflexivity. Qed.

Lemma round_half_even_bound a b :
  0 < b -> - b <= 2 * (Js.round_half_even a b * b - a) <= b.
Proof.
  intros Hb. unfold Js.round_half_even.
  pose proof (Z.div_mod a b ltac:(lia)) as Hdm.
  pose proof (Z.mod_pos_bound a b Hb) as Hr.
  set (q := a / b) in *. set (r := a mod b) in *.
  destruct (Z.ltb_spec (2 * r) b); [nia|].
  destruct (Z.ltb_spec b (2 * r)); [nia|].
  destruct (Z.even q); nia.
Qed.

Lemma log2_ratio s n :
  0 < n -> n <= s <= 5 * n -> 0 <= Z.log2 s - Z.log2 n <= 3.
Proof.
  intros Hn Hs.
  pose proof (Z.log2_le_mono n s ltac:(lia)).
  assert (Z.log2 s < Z.log2 n + 4); [|lia].
  apply Z.log2_lt_pow2; [lia|].
  pose proof (Z.log2_spec n Hn) as [_ Hlt].
  rewrite Z.pow_add_r by (pose proof (Z.log2_nonneg n); lia).
  replace (Z.succ (Z.log2 n)) with (Z.log2 n + 1) in Hlt by lia.
  rewrite Z.pow_add_r in Hlt by (pose proof (Z.log2_nonneg n); lia).
  change (2 ^ 4) with 16. change (2 ^ 1) with 2 in Hlt. lia.
Qed.

(** The double [fdiv s n] is [m * 2^-k] with [m] within one half of
    [s * 2^k / n], and [k] is large. *)
Lemma fdiv_bound s n :
  0 < n -> n <= s <= 5 * n ->
  exists m k,
    Js.fdiv s n = {| Js.mant := m; Js.expo := - k |}
    /\ 48 <= k <= 53
    /\ - n <= 2 * (m * n - s * 2 ^ k) <= n.
Proof.
  intros Hn Hs. unfold Js.fdiv.
  pose proof (log2_ratio s n Hn Hs) as Hd.
  set (d := Z.log2 s - Z.log2 n) in *.
  set (k := if 2 ^ 52 * n <=? s * 2 ^ (52 - d) then 52 - d else 52 - d + 1).
  assert (49 <= k <= 53) as Hk by (unfold k; destruct (_ <=? _); lia).
  pose proof (round_half_even_bound (s * 2 ^ k) n Hn) as Hm.
  set (m := Js.round_half_even (s * 2 ^ k) n) in *.
  destruct (Z.eqb_spec m (2 ^ 53)) as [Heq|Hne].
  - exists (2 ^ 52), (k - 1). replace (- (k - 1)) with (1 - k) by lia.
    split; [reflexivity|]. split; [lia|].
    replace (2 ^ k) with (2 * 2 ^ (k - 1)) in Hm
      by (rewrite <- Z.pow_succ_r by lia; f_equal; lia).
    rewrite Heq in Hm. change (2 ^ 53) with (2 * 2 ^ 52) in Hm.
    set (Q := 2 ^ (k - 1)) in *. set (T := 2 ^ 52) in *. lia.
  - exists m, k. split; [reflexivity|]. split; [lia|exact Hm].
Qed.

(** Rounding the double to a tenth gives a tenth nearest to the exact
    quotient. *)
Lemma nearest_tenth s n m P N :
  0 < n -> 10 * n < P ->
  - n <= 2 * (m * n - s * P) <= n ->
  2 * P * N <= 20 * m + P < 2 * P * (N + 1) ->
  - n <= 20 * s - 2 * N * n <= n.
Proof.
  intros Hn HP Hm HN.
  assert (P * (2 * N * n - 20 * s - n) <= 10 * n) as Hup by nia.
  assert (P * (20 * s - 2 * N * n - n) < 10 * n) as Hdown by nia.
  split.
  - destruct (Z_le_gt_dec (2 * N * n - 20 * s) n) as [|Hgt]; [lia|].
    assert (P * 1 <= P * (2 * N * n - 20 * s - n)) by (apply Z.mul_le_mono_nonneg_l; lia).
    lia.
  - destruct (Z_le_gt_dec (20 * s - 2 * N * n) n) as [|Hgt]; [lia|].
    assert (P * 1 <= P * (20 * s - 2 * N * n - n)) by (apply Z.mul_le_mono_nonneg_l; lia).
    lia.
Qed.

Lemma toFixed1_n_nearest s n :
  0 < n -> n < 2 ^ 32 -> n <= s <= 5 * n ->
  - n <= 20 * s - 2 * Js.toFixed1_n (Js.fdiv s n) * n <= n.
Proof.
  intros Hn Hlen Hs.
  destruct (fdiv_bound s n Hn Hs) as (m & k & -> & Hk & Hm).
  unfold Js.toFixed1_n. simpl Js.expo. simpl Js.mant.
  rewrite Z.opp_involutive.
  assert (0 < 2 ^ k) as HP by (apply Z.pow_pos_nonneg; lia).
  assert (2 ^ 48 <= 2 ^ k) as HP48 by (apply Z.pow_le_mono_r; lia).
  rewrite Z.pow_add_r by lia. change (2 ^ 1) with 2.
  set (P := 2 ^ k) in *.
  pose proof (Z.div_mod (20 * m + P) (P * 2) ltac:(lia)) as Hdm.
  pose proof (Z.mod_pos_bound (20 * m + P) (P * 2) ltac:(lia)) as Hr.
  set (N := (20 * m + P) / (P * 2)) in *.
  apply nearest_tenth with (m := m) (P := P); auto.
  - change (2 ^ 48) with 281474976710656 in HP48.
    change (2 ^ 32) with 4294967296 in Hlen. lia.
  - nia.
Qed.

Lemma fold_left_sum (rs : list Db.Review.t) (acc : Z) :
  fold_left (fun sum r => sum + Db.Review.rating r) rs acc = acc + total rs.
Proof.
  revert acc. induction rs as [|r rs IH]; intros acc; simpl.
  - unfold total. simpl. lia.
  - rewrite IH. unfold total. simpl. lia.
Qed.

Lemma sum_ratings_total rs : EventDetails.sum_ratings rs = total rs.
Proof. unfold EventDetails.sum_ratings. rewrite fold_left_sum. lia. Qed.

Lemma total_bounds rs :
  Forall (fun r => 1 <= Db.Review.rating r <= 5) rs ->
  Z.of_nat (List.length rs) <= total rs <= 5 * Z.of_nat (List.length rs).
Proof.
  induction 1 as [|r rs Hr _ IH]; unfold total in *; simpl List.length; simpl.
  - lia.
  - lia.
Qed.

Lemma avgRating_some d :
  EventDetails.reviews d <> [] ->
  EventDetails.avgRating d
  = one_decimal
      (Js.toFixed1_n (Js.fdiv (total (EventDetails.reviews d))
                              (Z.of_nat (List.length (EventDetails.reviews d))))).
Proof.
  intros Hne. unfold EventDetails.avgRating.
  destruct (EventDetails.reviews d) as [|r rs] eqn:E; [congruence|].
  rewrite sum_ratings_total.
  destruct (Z.ltb_spec 0 (Z.of_nat (List.length (r :: rs)))) as [_|H];
    [reflexivity|simpl in H; lia].
Qed.

(** C6.  Without reviews the average is "N/A" and nothing is divided.
    With reviews (ratings 1 to 5, fewer than 2^32 of them, the bound of a
    JavaScript array) it is the numeral, with one decimal, of a multiple
    of one tenth nearest to the arithmetic mean of the ratings, and of
    the only one unless the mean lies halfway between two tenths.  The
    ratings 5, 3, 4 give "4.0". *)
Theorem C6_average_rating :
  (forall d, EventDetails.reviews d = [] -> EventDetails.avgRating d = "N/A"%string)
  /\ (forall d,
        EventDetails.reviews d <> [] ->
        Forall (fun r => 1 <= Db.Review.rating r <= 5) (EventDetails.reviews d) ->
        Z.of_nat (List.length (EventDetails.reviews d)) < 2 ^ 32 ->
        exists tenths,
          EventDetails.avgRating d = one_decimal tenths
          /\ 10 <= tenths <= 50
          /\ nearest_tenth_of_mean (EventDetails.reviews d) tenths
          /\ forall other,
               Z.abs (20 * total (EventDetails.reviews d)
                      - 2 * other * Z.of_nat (List.length (EventDetails.reviews d)))
               < Z.of_nat (List.length (EventDetails.reviews d)) ->
               other = tenths)
  /\ (forall d,
        map Db.Review.rating (EventDetails.reviews d) = [5; 3; 4] ->
        EventDetails.avgRating d = "4.0"%string).
Proof.
  split; [|split].
  - intros d H. unfold EventDetails.avgRating. rewrite H. reflexivity.
  - intros d Hne Hr Hlen.
    rewrite (avgRating_some d Hne).
    pose proof (total_bounds _ Hr) as Hs.
    set (s := total (EventDetails.reviews d)) in *.
    set (n := Z.of_nat (List.length (EventDetails.reviews d))) in *.
    assert (0 < n) as Hn.
    { unfold n. destruct (EventDetails.reviews d); [congruence|simpl; lia]. }
    pose proof (toFixed1_n_nearest s n Hn Hlen Hs) as HN.
    set (N := Js.toFixed1_n (Js.fdiv s n)) in *.
    exists N. split; [reflexivity|].
    split; [nia|].
    split; [unfold nearest_tenth_of_mean; fold s; fold n; lia|].
    intros other Ho. nia.
  - intros d H. rewrite avgRating_some.
    + destruct (EventDetails.reviews d) as [|a [|b [|c [|x l]]]]; try discriminate.
      injection H as Ha Hb Hc. unfold total. simpl. rewrite Ha, Hb, Hc.
      vm_compute. reflexivity.
    + intros E. rewrite E in H. discriminate.
Qed.

Lemma C6_average_rating_witness :
  EventDetails.avgRating (details_of []) = "N/A"%string
  /\ EventDetails.avgRating
       (details_of [review_of 1 10 1 5; review_of 2 10 2 3; review_of 3 10 3 4])
     = "4.0"%string
  /\ exists tenths,
       EventDetails.avgRating
         (details_of [review_of 1 10 1 1; review_of 2 10 2 2; review_of 3 10 3 2])
       = one_decimal tenths
       /\ nearest_tenth_of_mean
            [review_of 1 10 1 1; review_of 2 10 2 2; review_of 3 10 3 2] tenths.
Proof.
  split; [|split].
  - apply (proj1 C6_average_rating (details_of [])). reflexivity.
  - apply (proj2 (proj2 C6_average_rating)
             (details_of [review_of 1 10 1 5; review_of 2 10 2 3; review_of 3 10 3 4])).
    reflexivity.
  - destruct (proj1 (proj2 C6_average_rating)
                (details_of [review_of 1 10 1 1; review_of 2 10 2 2; review_of 3 10 3 2]))
      as (tenths & Hs & _ & Hn & _).
    + simpl. discriminate.
    + simpl. repeat constructor; simpl; lia.
    + simpl. lia.
    + exists tenths. split; [exact Hs|exact Hn].
Defined.

(** Where the mean lies halfway between two tenths, the double decides:
    1.25 is a double and goes up, the double nearest to 1.45 lies below
    it and goes down. *)
Lemma avgRating_halfway :
  one_decimal (Js.toFixed1_n (Js.fdiv 5 4)) = "1.3"%string
  /\ one_decimal (Js.toFixed1_n (Js.fdiv 29 20)) = "1.4"%string.
Proof. split; vm_compute; reflexivity. Qed.

(* ===================================================================== *)
(** * Referential integrity in every reachable state *)
(* ===================================================================== *)

Lemma has_profile_In db u :
  Db.has_profile db u = true <-> In u (map Db.Profile.id (Db.profiles db)).
Proof.
  unfold Db.has_profile. rewrite existsb_exists, in_map_iff.
  split; intros [p [H1 H2]]; exists p.
  - apply Z.eqb_eq in H2. auto.
  - split; [exact H2|]. now apply Z.eqb_eq.
Qed.

Lemma has_event_In db i :
  Db.has_event db i = true <-> In i (map Db.Event.id (Db.events db)).
Proof.
  unfold Db.has_event. rewrite existsb_exists, in_map_iff.
  split; intros [p [H1 H2]]; exists p.
  - apply Z.eqb_eq in H2. auto.
  - split; [exact H2|]. now apply Z.eqb_eq.
Qed.

Lemma existsb_eqb_In (i : Z) (ids : list Z) : existsb (Z.eqb i) ids = true <-> In i ids.
Proof.
  rewrite existsb_exists. split.
  - intros [x [Hin Hx]]. apply Z.eqb_eq in Hx. now subst.
  - intros Hin. exists i. split; [exact Hin|apply Z.eqb_refl].
Qed.

(** What a successful insert has checked. *)
Lemma insert_event_checked uid e db db' :
  Db.insert_event uid e db = inl db' ->
  Db.uid_is uid (Db.Event.organizer_id e) = true
  /\ Db.has_profile db (Db.Event.organizer_id e) = true.
Proof.
  unfold Db.insert_event, Db.events_insert. intros H. inl_inversion H.
  apply negb_false_iff in E, E2. auto.
Qed.

Lemma insert_rsvp_checked uid r db db' :
  Db.insert_rsvp uid r db = inl db' ->
  Db.uid_is uid (Db.Rsvp.user_id r) = true
  /\ existsb (fun x => Db.Rsvp.id x =? Db.Rsvp.id r) (Db.rsvps db) = false
  /\ Db.has_event db (Db.Rsvp.event_id r) = true
  /\ Db.has_profile db (Db.Rsvp.user_id r) = true.
Proof.
  unfold Db.insert_rsvp, Db.rsvps_insert. intros H. inl_inversion H.
  apply negb_false_iff in E, E2, E3. auto.
Qed.

Lemma insert_review_checked uid r db db' :
  Db.insert_review uid r db = inl db' ->
  Db.uid_is uid (Db.Review.user_id r) = true
  /\ 1 <= Db.Review.rating r <= 5
  /\ existsb (fun x => Db.Review.id x =? Db.Review.id r) (Db.reviews db) = false
  /\ Db.has_event db (Db.Review.event_id r) = true
  /\ Db.has_profile db (Db.Review.user_id r) = true.
Proof.
  unfold Db.insert_review, Db.reviews_insert. intros H. inl_inversion H.
  apply negb_false_iff in E, E0, E3, E4.
  unfold Db.reviews_rating_check in E0. apply andb_true_iff in E0.
  rewrite !Z.leb_le in E0. auto.
Qed.

Lemma update_rsvp_In uid now e u s db r :
  In r (Db.rsvps (Db.update_rsvp_status uid now e u s db)) ->
  exists r0, In r0 (Db.rsvps db)
             /\ Db.Rsvp.id r = Db.Rsvp.id r0
             /\ Db.Rsvp.event_id r = Db.Rsvp.event_id r0
             /\ Db.Rsvp.user_id r = Db.Rsvp.user_id r0.
Proof.
  unfold Db.update_rsvp_status. simpl. rewrite in_map_iff.
  intros [r0 [Hr Hin]]. exists r0. split; [exact Hin|].
  destruct (_ && _); subst r; auto.
Qed.

Lemma step_references db db' :
  Db.step db db' -> references_hold db -> references_hold db'.
Proof.
  intros Hstep [Ho Hre Hru Hve Hvu].
  destruct Hstep as [now id meta db db' H|u db|uid e db db' H|uid e db
                    |uid r db db' H|uid now e u s db|uid r db db' H].
  - (* a new profile: nothing loses its target *)
    unfold Db.handle_new_user in H.
    destruct (Db.has_profile db id); [discriminate|]. injection H as <-.
    assert (forall x, Db.has_profile db x = true ->
                      Db.has_profile
                        {| Db.profiles := Db.profiles db ++
                             [ {| Db.Profile.id := id;
                                  Db.Profile.full_name :=
                                    match meta with
                                    | Some n => n
                                    | None => Js.str "Anonymous User"
                                    end;
                                  Db.Profile.bio := None;
                                  Db.Profile.location := None;
                                  Db.Profile.profile_picture := None;
                                  Db.Profile.created_at := now;
                                  Db.Profile.updated_at := now |} ];
                           Db.events := Db.events db;
                           Db.rsvps := Db.rsvps db;
                           Db.reviews := Db.reviews db |} x = true) as Hmono.
    { intros x Hx. unfold Db.has_profile in *. simpl.
      rewrite existsb_app, Hx. reflexivity. }
    constructor; simpl; auto.
  - (* an account goes, with what hangs on it *)
    assert (forall x, x <> u -> Db.has_profile db x = true ->
                      Db.has_profile (Db.delete_user u db) x = true) as Hp.
    { intros x Hx H. rewrite has_profile_In in *. simpl.
      apply in_map_iff in H. destruct H as [p [Hid Hin]].
      apply in_map_iff. exists p. split; [exact Hid|].
      apply filter_In. split; [exact Hin|].
      apply negb_true_iff. apply Z.eqb_neq. congruence. }
    assert (forall i,
              existsb (Z.eqb i)
                (map Db.Event.id
                   (filter (fun x => Db.Event.organizer_id x =? u) (Db.events db)))
              = false ->
              Db.has_event db i = true ->
              Db.has_event (Db.delete_user u db) i = true) as He.
    { intros i Hi H. rewrite has_event_In in *. simpl.
      apply in_map_iff in H. destruct H as [x [Hid Hin]].
      apply in_map_iff. exists x. split; [exact Hid|].
      apply filter_In. split; [exact Hin|].
      destruct (Z.eqb_spec (Db.Event.organizer_id x) u) as [Hu|]; [|reflexivity].
      exfalso. assert (existsb (Z.eqb i)
                         (map Db.Event.id
                            (filter (fun x => Db.Event.organizer_id x =? u)
                                    (Db.events db))) = true); [|congruence].
      apply existsb_eqb_In. apply in_map_iff. exists x. split; [exact Hid|].
      apply filter_In. split; [exact Hin|]. now apply Z.eqb_eq. }
    constructor; simpl.
    + intros e Hin. apply filter_In in Hin. destruct Hin as [Hin Hne].
      apply negb_true_iff, Z.eqb_neq in Hne. apply Hp; auto.
    + intros r Hin. apply filter_In in Hin. destruct Hin as [Hin Hk].
      apply andb_true_iff in Hk. destruct Hk as [_ Hk].
      apply negb_true_iff in Hk. apply He; auto.
    + intros r Hin. apply filter_In in Hin. destruct Hin as [Hin Hk].
      apply andb_true_iff in Hk. destruct Hk as [Hk _].
      apply negb_true_iff, Z.eqb_neq in Hk. apply Hp; auto.
    + intros r Hin. apply filter_In in Hin. destruct Hin as [Hin Hk].
      apply andb_true_iff in Hk. destruct Hk as [_ Hk].
      apply negb_true_iff in Hk. apply He; auto.
    + intros r Hin. apply filter_In in Hin. destruct Hin as [Hin Hk].
      apply andb_true_iff in Hk. destruct Hk as [Hk _].
      apply negb_true_iff, Z.eqb_neq in Hk. apply Hp; auto.
  - (* a new event *)
    pose proof (insert_event_checked _ _ _ _ H) as [_ Hprof].
    apply insert_event_inl in H. destruct H as (_ & _ & He & Hrs & Hrv & Hp).
    assert (forall x, Db.has_profile db' x = Db.has_profile db x) as Hsame
      by (intros x; unfold Db.has_profile; now rewrite Hp).
    assert (forall i, Db.has_event db i = true -> Db.has_event db' i = true) as Hmono.
    { intros i Hi. unfold Db.has_event in *. rewrite He, existsb_app, Hi.
      reflexivity. }
    constructor; rewrite ?He, ?Hrs, ?Hrv; intros x Hin; rewrite ?Hsame; auto.
    apply in_app_iff in Hin. destruct Hin as [Hin|[<-|[]]]; auto.
  - (* an event goes, with its RSVPs and reviews *)
    assert (forall x, Db.has_profile (Db.delete_event uid e db) x
                      = Db.has_profile db x) as Hsame by reflexivity.
    assert (forall i,
              existsb (Z.eqb i)
                (map Db.Event.id
                   (filter (fun x => (Db.Event.id x =? e) && Db.events_delete uid x)
                           (Db.events db)))
              = false ->
              Db.has_event db i = true ->
              Db.has_event (Db.delete_event uid e db) i = true) as He.
    { intros i Hi H. rewrite has_event_In in *. simpl.
      apply in_map_iff in H. destruct H as [x [Hid Hin]].
      apply in_map_iff. exists x. split; [exact Hid|].
      apply filter_In. split; [exact Hin|].
      destruct ((Db.Event.id x =? e) && Db.events_delete uid x) eqn:Hg;
        [|reflexivity].
      exfalso. assert (existsb (Z.eqb i)
                         (map Db.Event.id
                            (filter (fun x => (Db.Event.id x =? e)
                                              && Db.events_delete uid x)
                                    (Db.events db))) = true); [|congruence].
      apply existsb_eqb_In. apply in_map_iff. exists x. split; [exact Hid|].
      apply filter_In. split; [exact Hin|exact Hg]. }
    constructor; simpl.
    + intros x Hin. apply filter_In in Hin. rewrite Hsame. apply Ho. tauto.
    + intros r Hin. apply filter_In in Hin. destruct Hin as [Hin Hk].
      apply negb_true_iff in Hk. apply He; auto.
    + intros r Hin. apply filter_In in Hin. rewrite Hsame. apply Hru. tauto.
    + intros r Hin. apply filter_In in Hin. destruct Hin as [Hin Hk].
      apply negb_true_iff in Hk. apply He; auto.
    + intros r Hin. apply filter_In in Hin. rewrite Hsame. apply Hvu. tauto.
  - (* a new RSVP *)
    pose proof (insert_rsvp_checked _ _ _ _ H) as (_ & _ & Hev & Hpr).
    apply insert_rsvp_inl in H. destruct H as (_ & Hrs & He & Hrv & Hp).
    assert (forall x, Db.has_profile db' x = Db.has_profile db x) as Hsp
      by (intros x; unfold Db.has_profile; now rewrite Hp).
    assert (forall x, Db.has_event db' x = Db.has_event db x) as Hse
      by (intros x; unfold Db.has_event; now rewrite He).
    constructor; rewrite ?He, ?Hrs, ?Hrv; intros x Hin; rewrite ?Hsp, ?Hse; auto;
      apply in_app_iff in Hin; destruct Hin as [Hin|[<-|[]]]; auto.
  - (* a status changes *)
    constructor; try assumption.
    + intros r Hin. apply update_rsvp_In in Hin.
      destruct Hin as (r0 & Hin & _ & -> & _). now apply Hre.
    + intros r Hin. apply update_rsvp_In in Hin.
      destruct Hin as (r0 & Hin & _ & _ & ->). now apply Hru.
  - (* a new review *)
    pose proof (insert_review_checked _ _ _ _ H) as (_ & _ & _ & Hev & Hpr).
    apply insert_review_inl in H. destruct H as (_ & Hrv & He & Hrs & Hp).
    assert (forall x, Db.has_profile db' x = Db.has_profile db x) as Hsp
      by (intros x; unfold Db.has_profile; now rewrite Hp).
    assert (forall x, Db.has_event db' x = Db.has_event db x) as Hse
      by (intros x; unfold Db.has_event; now rewrite He).
    constructor; rewrite ?He, ?Hrs, ?Hrv; intros x Hin; rewrite ?Hsp, ?Hse; auto;
      apply in_app_iff in Hin; destruct Hin as [Hin|[<-|[]]]; auto.
Qed.

Lemma step_columns db db' : Db.step db db' -> columns_hold db -> columns_hold db'.
Proof.
  intros Hstep [Hp Hr Hv Hc].
  destruct Hstep as [now id meta db db' H|u db|uid e db db' H|uid e db
                    |uid r db db' H|uid now e u s db|uid r db db' H].
  - unfold Db.handle_new_user in H.
    destruct (Db.has_profile db id) eqn:E; [discriminate|]. injection H as <-.
    constructor; simpl; auto.
    apply NoDup_map_snoc; auto. simpl.
    intros Hin. apply has_profile_In in Hin. congruence.
  - constructor; simpl; auto using NoDup_map_filter.
    intros r Hin. apply filter_In in Hin. apply Hc. tauto.
  - apply insert_event_inl in H. destruct H as (_ & _ & _ & Hrs & Hrv & Hpr).
    constructor; rewrite ?Hrs, ?Hrv, ?Hpr; auto.
  - constructor; simpl; auto using NoDup_map_filter.
    intros r Hin. apply filter_In in Hin. apply Hc. tauto.
  - pose proof (insert_rsvp_checked _ _ _ _ H) as (_ & Hid & _).
    apply insert_rsvp_inl in H. destruct H as (_ & Hrs & _ & Hrv & Hpr).
    constructor; rewrite ?Hrs, ?Hrv, ?Hpr; auto.
    apply NoDup_map_snoc; auto.
    apply existsb_false_not_In with (eqb := Z.eqb); auto using Z.eqb_eq.
  - constructor; auto.
    unfold Db.update_rsvp_status. simpl. rewrite map_map.
    erewrite map_ext; [exact Hr|].
    intros r. destruct (_ && _); reflexivity.
  - pose proof (insert_review_checked _ _ _ _ H) as (_ & Hrate & Hid & _).
    apply insert_review_inl in H. destruct H as (_ & Hrv & _ & Hrs & Hpr).
    constructor; rewrite ?Hrs, ?Hrv, ?Hpr; auto.
    + apply NoDup_map_snoc; auto.
      apply existsb_false_not_In with (eqb := Z.eqb); auto using Z.eqb_eq.
    + intros x Hin. apply in_app_iff in Hin. destruct Hin as [Hin|[<-|[]]]; auto.
Qed.

Lemma update_profile_has_profile uid now id v db x :
  Db.has_profile (ProfilePage.update_profile uid now id v db) x = Db.has_profile db x.
Proof.
  unfold Db.has_profile, ProfilePage.update_profile. simpl.
  induction (Db.profiles db) as [|p l IH]; simpl; [reflexivity|].
  rewrite IH. destruct (_ && _); reflexivity.
Qed.

Lemma update_profile_ids uid now id v db :
  map Db.Profile.id (Db.profiles (ProfilePage.update_profile uid now id v db))
  = map Db.Profile.id (Db.profiles db).
Proof.
  unfold ProfilePage.update_profile. simpl. rewrite map_map.
  apply map_ext. intros p. destruct (_ && _); reflexivity.
Qed.

Lemma statement_references db db' :
  statement db db' -> references_hold db -> references_hold db'.
Proof.
  intros [db0 db1 Hstep|uid now id v db0] H.
  - eapply step_references; eauto.
  - destruct H as [Ho Hre Hru Hve Hvu].
    constructor; intros x Hin; rewrite ?update_profile_has_profile.
    + now apply Ho.
    + now apply (Hre x).
    + now apply Hru.
    + now apply (Hve x).
    + now apply Hvu.
Qed.

Lemma statement_columns db db' :
  statement db db' -> columns_hold db -> columns_hold db'.
Proof.
  intros [db0 db1 Hstep|uid now id v db0] H.
  - eapply step_columns; eauto.
  - destruct H as [Hp Hr Hv Hc].
    constructor; auto. rewrite update_profile_ids. exact Hp.
Qed.

Lemma statement_constraints db db' :
  statement db db' -> constraints db -> constraints db'.
Proof.
  intros [db0 db1 Hstep|uid now id v db0] H.
  - eapply step_constraints; eauto.
  - destruct H. constructor; assumption.
Qed.

Lemma reachable_reached db : Db.reachable db -> reached db.
Proof.
  induction 1 as [|db db' _ IH Hstep]; [constructor|].
  apply reached_next with (db := db); [exact IH|now constructor].
Qed.

(** The constraints of the claims hold under every statement of the
    pages, the update of a profile included. *)
Lemma reached_constraints db : reached db -> constraints db.
Proof.
  induction 1 as [|db db' _ IH Hst].
  - constructor; unfold Db.events_valid, events_pk, Db.rsvps_unique,
      Db.reviews_unique; simpl; constructor.
  - eapply statement_constraints; eauto.
Qed.

(** X1.  In every state the statements of the pages and the triggers can
    reach, each event has the profile of its organizer, and each RSVP and
    each review has its event and the profile of its author: no
    statement, cascade included, leaves a dangling reference. *)
Theorem reached_references_hold :
  forall db, reached db -> references_hold db.
Proof.
  induction 1 as [|db db' _ IH Hst].
  - constructor; simpl; intros x [].
  - eapply statement_references; eauto.
Qed.

Lemma reached_references_hold_witness :
  references_hold db_reviewed.
Proof.
  apply (reached_references_hold db_reviewed).
  apply reachable_reached. exact db_reviewed_reachable.
Defined.

(** X2.  In every such state the ids of profiles, of RSVPs and of
    reviews are unique, and every stored rating lies between 1 and 5. *)
Theorem reached_columns_hold :
  forall db, reached db -> columns_hold db.
Proof.
  induction 1 as [|db db' _ IH Hst].
  - constructor; simpl; [constructor|constructor|constructor|intros x []].
  - eapply statement_columns; eauto.
Qed.

Lemma reached_columns_hold_witness :
  columns_hold db_reviewed.
Proof.
  apply (reached_columns_hold db_reviewed).
  apply reachable_reached. exact db_reviewed_reachable.
Defined.

(* ===================================================================== *)
(** * Saving and loading a profile *)
(* ===================================================================== *)

Lemma string_max_nil field hi msg s :
  ProfilePage.string_max field hi msg s = [] <-> Js.length s <= hi.
Proof.
  unfold ProfilePage.string_max.
  destruct (Z.ltb_spec hi (Js.length s)); split; intros Hn;
    try discriminate; try reflexivity; lia.
Qed.

Lemma optional_string_nil field hi msg s :
  ProfilePage.optional_string field hi msg (ProfilePage.or_null s) = []
  <-> s <> [] /\ Js.length (Js.trim s) <= hi.
Proof.
  destruct s as [|c s]; simpl.
  - split; [discriminate|]. intros [H _]. congruence.
  - rewrite <- (string_max_nil field hi msg). split.
    + intros H. split; [discriminate|]. now apply map_eq_nil in H.
    + intros [_ ->]. reflexivity.
Qed.

Lemma profileSchema_issues_nil d :
  ProfilePage.profileSchema_issues d = [] <-> profile_valid d.
Proof.
  unfold ProfilePage.profileSchema_issues, profile_valid.
  pose proof (string_min_max_nil "full_name" 2
                (Some "Name must be at least 2 characters"%string) 100
                (Js.trim (ProfilePage.full_name d))) as Hn.
  pose proof (optional_string_nil "bio" 500 "Bio must be less than 500 characters"
                (ProfilePage.bio d)) as Hb.
  pose proof (optional_string_nil "location" 200
                "Location must be less than 200 characters"
                (ProfilePage.location d)) as Hl.
  split.
  - intros H. apply app_eq_nil in H. destruct H as [H1 H].
    apply app_eq_nil in H. destruct H as [H2 H3].
    apply map_eq_nil in H1. tauto.
  - intros (H1 & H2 & H3 & H4 & H5).
    apply Hn in H1. rewrite H1.
    rewrite (proj2 Hb (conj H2 H3)), (proj2 Hl (conj H4 H5)). reflexivity.
Qed.

Lemma filter_no_row {A : Type} (key : A -> Z) (rows : list A) (k : Z) :
  ~ In k (map key rows) -> filter (fun q => key q =? k) rows = [].
Proof.
  induction rows as [|x rows IH]; simpl; intros Hno; [reflexivity|].
  destruct (Z.eqb_spec (key x) k) as [Heq|_]; [tauto|].
  apply IH. tauto.
Qed.

Lemma filter_own_row {A : Type} (key : A -> Z) (rows : list A) (p : A) :
  NoDup (map key rows) -> In p rows ->
  filter (fun q => key q =? key p) rows = [p].
Proof.
  induction rows as [|x rows IH]; simpl; intros Hnd Hin; [tauto|].
  inversion Hnd as [|? ? Hx Hrows]; subst.
  destruct Hin as [->|Hin].
  - rewrite Z.eqb_refl, filter_no_row by exact Hx. reflexivity.
  - destruct (Z.eqb_spec (key x) (key p)) as [Heq|_]; [|now apply IH].
    exfalso. apply Hx. rewrite Heq. now apply in_map.
Qed.

Lemma select_profile_own u db p :
  NoDup (map Db.Profile.id (Db.profiles db)) ->
  In p (Db.profiles db) -> Db.Profile.id p = u ->
  ProfilePage.select_profile (Some u) db = inl p.
Proof.
  intros Hnd Hin <-. unfold ProfilePage.select_profile, Db.select_profiles,
    Db.profiles_select.
  rewrite filter_true, (filter_own_row Db.Profile.id) by assumption.
  reflexivity.
Qed.

Lemma update_profile_rows u now v db :
  Db.profiles (ProfilePage.update_profile (Some u) now u v db)
  = map (fun q => if Db.Profile.id q =? u then ProfilePage.set_fields v now q else q)
        (Db.profiles db).
Proof.
  unfold ProfilePage.update_profile. simpl. apply map_ext. intros q.
  unfold Db.profiles_update, Db.uid_is.
  destruct (Z.eqb_spec (Db.Profile.id q) u) as [->|]; simpl; [|reflexivity].
  rewrite Z.eqb_refl. reflexivity.
Qed.

(** X3.  Saving the profile with an empty bio or an empty location is
    refused and writes nothing: the form turns the empty field into
    [null], which the schema's optional string does not accept.  With a
    name that passes and an empty bio, the toast is the type issue of the
    bio. *)
Theorem profile_save_refuses_empty_fields :
  forall user now data db profile,
    ProfilePage.bio data = [] \/ ProfilePage.location data = [] ->
    (exists m, ProfilePage.handleSubmit user now data db profile
               = (db, profile, [toast_error m]))
    /\ (2 <= Js.length (Js.trim (ProfilePage.full_name data)) <= 100 ->
        ProfilePage.bio data = [] ->
        ProfilePage.handleSubmit user now data db profile
        = (db, profile, [toast_error (text "Expected string, received null")])).
Proof.
  intros user now data db profile Hempty. split.
  - unfold ProfilePage.handleSubmit, ProfilePage.profileSchema_parse.
    destruct (ProfilePage.profileSchema_issues data) as [|m issues] eqn:E.
    + exfalso. apply profileSchema_issues_nil in E.
      destruct E as (_ & Hb & _ & Hl & _). tauto.
    + exists m. reflexivity.
  - intros Hname Hbio.
    unfold ProfilePage.handleSubmit, ProfilePage.profileSchema_parse,
      ProfilePage.profileSchema_issues.
    apply (string_min_max_nil "full_name" 2
             (Some "Name must be at least 2 characters"%string) 100) in Hname.
    rewrite Hname, Hbio. reflexivity.
Qed.

Lemma profile_save_refuses_empty_fields_witness :
  ProfilePage.handleSubmit (Some 2) 70 (profile_form "Grace Hopper" "" "Arlington")
    db_public None
  = (db_public, None, [toast_error (text "Expected string, received null")]).
Proof.
  apply (proj2 (profile_save_refuses_empty_fields (Some 2) 70
                  (profile_form "Grace Hopper" "" "Arlington") db_public None
                  (or_introl eq_refl))).
  - vm_compute. split; discriminate.
  - reflexivity.
Defined.

(** X4.  Saving a form that passes the schema writes the trimmed name,
    bio and location into the caller's own profile row, stamps
    [updated_at], keeps its id, picture and [created_at], leaves every
    other profile and every other table as it was, and the page then
    shows the saved row. *)
Theorem profile_save_round_trip :
  forall u now data db profile p,
    NoDup (map Db.Profile.id (Db.profiles db)) ->
    In p (Db.profiles db) ->
    Db.Profile.id p = u ->
    profile_valid data ->
    let saved := ProfilePage.set_fields (trimmed_form data) now p in
    let db' := ProfilePage.update_profile (Some u) now u (trimmed_form data) db in
    ProfilePage.handleSubmit (Some u) now data db profile
    = (db', Some saved, [toast_success "Profile updated successfully!"])
    /\ Db.profiles db'
       = map (fun q => if Db.Profile.id q =? u then saved else q) (Db.profiles db)
    /\ Db.events db' = Db.events db
    /\ Db.rsvps db' = Db.rsvps db
    /\ Db.reviews db' = Db.reviews db.
Proof.
  intros u now data db profile p Hnd Hin Hid Hv saved db'.
  assert (Db.profiles db'
          = map (fun q => if Db.Profile.id q =? u then saved else q) (Db.profiles db))
    as Hrows.
  { unfold db'. rewrite update_profile_rows. apply map_ext_in. intros q Hq.
    destruct (Z.eqb_spec (Db.Profile.id q) u) as [Hqu|]; [|reflexivity].
    unfold saved. f_equal.
    apply (NoDup_map_inj Db.Profile.id (Db.profiles db)); auto. congruence. }
  split; [|repeat split; auto].
  unfold ProfilePage.handleSubmit, ProfilePage.profileSchema_parse.
  apply profileSchema_issues_nil in Hv. rewrite Hv.
  fold (trimmed_form data). fold db'.
  unfold ProfilePage.fetchProfile.
  rewrite (select_profile_own u db' saved); [reflexivity| | |].
  - rewrite Hrows, map_map. erewrite map_ext; [exact Hnd|].
    intros q. simpl. destruct (Z.eqb_spec (Db.Profile.id q) u); [|reflexivity].
    unfold saved. simpl. congruence.
  - rewrite Hrows. apply in_map_iff. exists p. split; [|exact Hin].
    rewrite Hid, Z.eqb_refl. reflexivity.
  - unfold saved. simpl. exact Hid.
Qed.

Lemma profile_save_round_trip_witness :
  ProfilePage.handleSubmit (Some 2) 70
    (profile_form " Grace Hopper " "Compilers" "Arlington") db_public None
  = (ProfilePage.update_profile (Some 2) 70 2
       (trimmed_form (profile_form " Grace Hopper " "Compilers" "Arlington")) db_public,
     Some (ProfilePage.set_fields
             (trimmed_form (profile_form " Grace Hopper " "Compilers" "Arlington"))
             70 (profile_of 2 "Grace")),
     [toast_success "Profile updated successfully!"]).
Proof.
  apply (profile_save_round_trip 2 70
           (profile_form " Grace Hopper " "Compilers" "Arlington") db_public None
           (profile_of 2 "Grace")).
  - simpl. repeat constructor; simpl; intuition lia.
  - simpl. auto.
  - reflexivity.
  - unfold profile_valid. vm_compute.
    repeat split; discriminate.
Defined.

(** X5.  Registering an account whose id has no profile creates one
    with the name of the metadata, or "Anonymous User" without one,
    leaves the other tables alone, and the new account's profile page
    loads exactly that row; for an id that has a profile the trigger
    fails on the primary key. *)
Theorem signup_then_profile :
  forall now id meta db,
    (Db.has_profile db id = false ->
     exists db',
       Db.handle_new_user now id meta db = inl db'
       /\ Db.profiles db' = Db.profiles db ++ [new_profile now id meta]
       /\ Db.events db' = Db.events db
       /\ Db.rsvps db' = Db.rsvps db
       /\ Db.reviews db' = Db.reviews db
       /\ ProfilePage.fetchProfile (Some id) db' None
          = (Some (new_profile now id meta), []))
    /\ (Db.has_profile db id = true ->
        Db.handle_new_user now id meta db
        = inr (Db.unique_violation "profiles_pkey")).
Proof.
  intros now id meta db. split; intros H.
  - unfold Db.handle_new_user. rewrite H. fold (new_profile now id meta).
    eexists. split; [reflexivity|]. simpl. repeat split.
    unfold ProfilePage.fetchProfile, ProfilePage.select_profile,
      Db.select_profiles, Db.profiles_select. simpl.
    rewrite filter_true, filter_app.
    rewrite (filter_no_row Db.Profile.id).
    + simpl. rewrite Z.eqb_refl. reflexivity.
    + intros Hin. apply has_profile_In in Hin. congruence.
  - unfold Db.handle_new_user. rewrite H. reflexivity.
Qed.

Lemma signup_then_profile_witness :
  exists db',
    Db.handle_new_user 5 4 None db_public = inl db'
    /\ Db.profiles db' = Db.profiles db_public ++ [new_profile 5 4 None]
    /\ Db.events db' = Db.events db_public
    /\ Db.rsvps db' = Db.rsvps db_public
    /\ Db.reviews db' = Db.reviews db_public
    /\ ProfilePage.fetchProfile (Some 4) db' None = (Some (new_profile 5 4 None), []).
Proof.
  apply (proj1 (signup_then_profile 5 4 None db_public)). reflexivity.
Defined.

(* ===================================================================== *)
(** * Deleting an event, and what the anonymous role can write *)
(* ===================================================================== *)

Lemma filter_all {A : Type} (keep : A -> bool) (rows : list A) :
  (forall x, In x rows -> keep x = true) -> filter keep rows = rows.
Proof.
  induction rows as [|x rows IH]; simpl; intros H; [reflexivity|].
  rewrite (H x) by now left. f_equal. apply IH. intros y Hy. apply H. now right.
Qed.

Lemma filter_none {A : Type} (keep : A -> bool) (rows : list A) :
  (forall x, In x rows -> keep x = false) -> filter keep rows = [].
Proof.
  induction rows as [|x rows IH]; simpl; intros H; [reflexivity|].
  rewrite (H x) by now left. apply IH. intros y Hy. apply H. now right.
Qed.

(** A delete that the policy admits for no row of that id removes
    nothing. *)
Lemma delete_event_nothing uid id db :
  (forall e, In e (Db.events db) -> Db.Event.id e = id ->
             Db.uid_is uid (Db.Event.organizer_id e) = false) ->
  Db.delete_event uid id db = db.
Proof.
  intros Hno. unfold Db.delete_event.
  assert (filter (fun x => (Db.Event.id x =? id) && Db.events_delete uid x)
                 (Db.events db) = []) as ->.
  { apply filter_none. intros e Hin.
    destruct (Z.eqb_spec (Db.Event.id e) id) as [Heq|]; [|reflexivity].
    simpl. unfold Db.events_delete. now apply Hno. }
  simpl. rewrite !filter_all; [destruct db; reflexivity| | |]; auto.
  intros e Hin. apply negb_true_iff.
  destruct (Z.eqb_spec (Db.Event.id e) id) as [Heq|]; [|reflexivity].
  simpl. unfold Db.events_delete. now apply Hno.
Qed.

(** X6.  When the organizer deletes an event, the event row goes and
    with it exactly the RSVPs and the reviews of that event; the other
    events, their RSVPs and reviews, and all profiles stay as they
    were. *)
Theorem delete_by_organizer_cascades :
  forall u id db e,
    events_pk db ->
    In e (Db.events db) ->
    Db.Event.id e = id ->
    Db.Event.organizer_id e = u ->
    let db' := fst (EventDetails.handleDelete (Some u) id db) in
    Db.events db' = filter (fun x => negb (Db.Event.id x =? id)) (Db.events db)
    /\ Db.rsvps db' = filter (fun r => negb (Db.Rsvp.event_id r =? id)) (Db.rsvps db)
    /\ Db.reviews db'
       = filter (fun r => negb (Db.Review.event_id r =? id)) (Db.reviews db)
    /\ Db.profiles db' = Db.profiles db
    /\ Db.has_event db' id = false.
Proof.
  intros u id db e Hpk Hin Hid Ho db'.
  assert (forall x, In x (Db.events db) ->
                    (Db.Event.id x =? id) && Db.events_delete (Some u) x
                    = (Db.Event.id x =? id)) as Hgone.
  { intros x Hx. destruct (Z.eqb_spec (Db.Event.id x) id) as [Heq|]; [|reflexivity].
    simpl. assert (x = e) as ->
      by (apply (NoDup_map_inj Db.Event.id (Db.events db)); auto; congruence).
    unfold Db.events_delete. rewrite Ho. apply uid_is_refl. }
  assert (filter (fun x => (Db.Event.id x =? id) && Db.events_delete (Some u) x)
                 (Db.events db) = [e]) as Hdead.
  { erewrite filter_ext_in; [|exact Hgone].
    rewrite <- Hid. now apply (filter_own_row Db.Event.id). }
  assert (Db.events db'
          = filter (fun x => negb (Db.Event.id x =? id)) (Db.events db)) as Hev.
  { unfold db', EventDetails.handleDelete, Db.delete_event.
    cbn [fst Db.events]. apply filter_ext_in. intros x Hx. now rewrite Hgone. }
  split; [exact Hev|].
  assert (forall i, existsb (Z.eqb i) (map Db.Event.id [e]) = (i =? id)) as Horph
    by (intros i; simpl; rewrite Hid; apply orb_false_r).
  split; [|split; [|split]].
  - unfold db', EventDetails.handleDelete, Db.delete_event.
    cbn [fst Db.rsvps]. rewrite Hdead.
    apply filter_ext. intros r. now rewrite Horph.
  - unfold db', EventDetails.handleDelete, Db.delete_event.
    cbn [fst Db.reviews]. rewrite Hdead.
    apply filter_ext. intros r. now rewrite Horph.
  - reflexivity.
  - destruct (Db.has_event db' id) eqn:E; [|reflexivity].
    apply has_event_In in E. rewrite Hev in E. apply in_map_iff in E.
    destruct E as [x [Hx Hxin]]. apply filter_In in Hxin.
    destruct Hxin as [_ Hne]. apply negb_true_iff, Z.eqb_neq in Hne. congruence.
Qed.

Lemma delete_by_organizer_cascades_witness :
  fst (EventDetails.handleDelete (Some 1) 10 db_busy)
  = {| Db.profiles := Db.profiles db_public;
       Db.events := [event_of 20 false];
       Db.rsvps := [rsvp_of 31 20 2 Db.going];
       Db.reviews := [] |}
  /\ Db.has_event (fst (EventDetails.handleDelete (Some 1) 10 db_busy)) 10 = false.
Proof.
  split; [reflexivity|].
  apply (delete_by_organizer_cascades 1 10 db_busy (event_of 10 true)).
  - unfold events_pk. simpl. repeat constructor; simpl; intuition lia.
  - simpl. auto.
  - reflexivity.
  - reflexivity.
Defined.

(** X7.  A delete sent by anyone but the organizer, or for an id no
    event has, removes nothing, and the handler still reports "Event
    deleted successfully" and navigates to the list: the policy filters
    the row without an error. *)
Theorem delete_by_other_is_silent :
  forall uid id db,
    (forall e, In e (Db.events db) -> Db.Event.id e = id ->
               Db.uid_is uid (Db.Event.organizer_id e) = false) ->
    EventDetails.handleDelete uid id db = (db, deleted_effects).
Proof.
  intros uid id db Hno. unfold EventDetails.handleDelete.
  rewrite delete_event_nothing by exact Hno. reflexivity.
Qed.

Lemma delete_by_other_is_silent_witness :
  EventDetails.handleDelete (Some 2) 10 db_busy = (db_busy, deleted_effects).
Proof.
  apply (delete_by_other_is_silent (Some 2) 10 db_busy).
  intros e [<-|[<-|[]]] H; [reflexivity|discriminate H].
Defined.

(** X8.  The anonymous role writes nothing: each insert comes back with
    a policy violation, each update and delete finds no row it may
    touch, and every handler leaves the stored state as it was. *)
Theorem anonymous_writes_nothing :
  forall db,
    (forall e, Db.insert_event None e db = inr (Db.rls_violation "events"))
    /\ (forall r, Db.insert_rsvp None r db = inr (Db.rls_violation "rsvps"))
    /\ (forall r, Db.insert_review None r db = inr (Db.rls_violation "reviews"))
    /\ (forall now e u s, Db.update_rsvp_status None now e u s db = db)
    /\ (forall id, Db.delete_event None id db = db)
    /\ (forall now id v, ProfilePage.update_profile None now id v db = db)
    /\ (forall isPublic now newid data,
          fst (CreateEvent.handleSubmit None isPublic now newid data db) = db)
    /\ (forall id now newid s pg,
          fst (fst (EventDetails.handleRsvp None id now newid s db pg)) = db)
    /\ (forall id now newid pg,
          fst (fst (EventDetails.handleSubmitReview None id now newid db pg)) = db)
    /\ (forall id, fst (EventDetails.handleDelete None id db) = db)
    /\ (forall now data profile,
          fst (fst (ProfilePage.handleSubmit None now data db profile)) = db).
Proof.
  intros db.
  assert (forall id, Db.delete_event None id db = db) as Hdel
    by (intros id; apply delete_event_nothing; reflexivity).
  repeat split; try reflexivity; try exact Hdel.
  - intros now e u s. unfold Db.update_rsvp_status.
    erewrite map_ext; [rewrite map_id; destruct db; reflexivity|].
    intros r. simpl. rewrite andb_false_r. reflexivity.
  - intros now id v. unfold ProfilePage.update_profile.
    erewrite map_ext; [rewrite map_id; destruct db; reflexivity|].
    intros p. simpl. rewrite andb_false_r. reflexivity.
  - intros now data profile. unfold ProfilePage.handleSubmit.
    destruct (ProfilePage.profileSchema_parse data); reflexivity.
Qed.

(* ===================================================================== *)
(** * What an RSVP leaves alone, and what the page counts *)
(* ===================================================================== *)

Lemma other_pairs_after_update id u s now rows :
  filter (other_pair id u)
    (map (fun r => if rsvp_of_pair id u r then Db.set_status s now r else r) rows)
  = filter (other_pair id u) rows.
Proof.
  unfold other_pair. induction rows as [|r rows IH]; simpl; [reflexivity|].
  destruct (rsvp_of_pair id u r) eqn:E.
  - rewrite rsvp_of_pair_set_status, E. simpl. exact IH.
  - rewrite E. simpl. now rewrite IH.
Qed.

(** X9.  Whatever the page believes, a submission of account [u] for
    event [id] leaves events, reviews and profiles as they were, and
    every RSVP row of another event or another account: among the rows of
    other pairs nothing is changed, added or removed.  And an update
    addressed to the rows of another account changes nothing. *)
Theorem handleRsvp_touches_own_row_only :
  forall u id now newid s db pg,
    (let db' := fst (fst (EventDetails.handleRsvp (Some u) id now newid s db pg)) in
     Db.events db' = Db.events db
     /\ Db.reviews db' = Db.reviews db
     /\ Db.profiles db' = Db.profiles db
     /\ filter (other_pair id u) (Db.rsvps db')
        = filter (other_pair id u) (Db.rsvps db))
    /\ (forall other, other <> u ->
          Db.update_rsvp_status (Some u) now id other s db = db).
Proof.
  intros u id now newid s db pg. split.
  - destruct (EventDetails.userRsvp pg) as [old|] eqn:Hpg.
    + rewrite (handleRsvp_update u id now newid s db pg old Hpg).
      cbn [fst]. rewrite update_rsvp_rows, other_pairs_after_update.
      repeat split.
    + unfold EventDetails.handleRsvp. rewrite Hpg.
      destruct (Db.insert_rsvp _ _ db) as [db1|err] eqn:E; [|repeat split].
      destruct (EventDetails.fetchEvent _ _ db1 _) as [pg2 effs]. cbn [fst].
      apply insert_rsvp_inl in E. destruct E as (_ & Hrs & He & Hrv & Hp).
      rewrite Hrs, He, Hrv, Hp, filter_app. simpl.
      unfold other_pair at 2, rsvp_of_pair, Db.key_eqb. simpl.
      rewrite !Z.eqb_refl. simpl. rewrite app_nil_r. repeat split.
  - intros other Hne. unfold Db.update_rsvp_status.
    erewrite map_ext_in; [rewrite map_id; destruct db; reflexivity|].
    intros r _. simpl.
    destruct (Z.eqb_spec (Db.Rsvp.user_id r) other) as [->|];
      [|rewrite andb_false_r; reflexivity].
    unfold Db.rsvps_update, Db.uid_is.
    destruct (Z.eqb_spec u other); [congruence|].
    rewrite andb_false_r. reflexivity.
Qed.

Lemma status_partition (rows : list Db.Rsvp.t) :
  (List.length (filter (status_is Db.going) rows)
   + List.length (filter (status_is Db.maybe) rows)
   + List.length (filter (status_is Db.not_going) rows))%nat
  = List.length rows.
Proof.
  induction rows as [|r rows IH]; [reflexivity|].
  cbn [filter].
  assert (status_is Db.going r
          = match Db.Rsvp.status r with Db.going => true | _ => false end)
    as -> by reflexivity.
  assert (status_is Db.maybe r
          = match Db.Rsvp.status r with Db.maybe => true | _ => false end)
    as -> by reflexivity.
  assert (status_is Db.not_going r
          = match Db.Rsvp.status r with Db.not_going => true | _ => false end)
    as -> by reflexivity.
  destruct (Db.Rsvp.status r); cbn [List.length]; lia.
Qed.

(** X10.  For one event in one state, the numbers of the page add up:
    going, maybe and not going together are all its RSVPs, and that total
    is the count the card of the list shows; so the card counts the
    "Can't Go" answers too. *)
Theorem counts_add_up :
  forall uid db e,
    let d := EventDetails.embed uid db e in
    let it := Index.embed uid db e in
    (status_count Db.going d + status_count Db.maybe d
     + status_count Db.not_going d)%nat
    = rsvp_count it
    /\ rsvp_count it
       = List.length (filter (fun r => Db.Rsvp.event_id r =? Db.Event.id e)
                             (Db.rsvps db)).
Proof.
  intros uid db e d it. unfold status_count, rsvp_count. split.
  - rewrite status_partition. reflexivity.
  - simpl. unfold Db.select_rsvps, Db.rsvps_select. now rewrite filter_true.
Qed.

(** X11.  At no instant does the event page offer both the RSVP buttons
    and the review form: the buttons need the event not to have ended,
    the form needs it to have ended.  The organizer never gets the
    buttons; nothing keeps the organizer from reviewing the own event
    once it has ended. *)
Theorem buttons_or_form :
  forall user now d,
    (EventDetails.showRsvpButtons user now d
     && EventDetails.showReviewForm user now d = false)
    /\ (EventDetails.isOrganizer user d = true ->
        EventDetails.showRsvpButtons user now d = false)
    /\ (forall u,
          user = Some u ->
          Db.Event.organizer_id (EventDetails.row d) = u ->
          Db.Event.end_time (EventDetails.row d) < now ->
          (forall r, In r (EventDetails.reviews d) -> Db.Review.user_id r <> u) ->
          EventDetails.showReviewForm user now d = true).
Proof.
  intros user now d. split; [|split].
  - unfold EventDetails.showRsvpButtons, EventDetails.showReviewForm.
    destruct user as [u|]; [|apply andb_false_r].
    destruct (EventDetails.isOrganizer (Some u) d),
      (EventDetails.hasEnded now d), (existsb _ (EventDetails.reviews d));
      reflexivity.
  - intros H. unfold EventDetails.showRsvpButtons. rewrite H. reflexivity.
  - intros u -> Ho Hend Hnone. unfold EventDetails.showReviewForm, EventDetails.hasEnded.
    apply andb_true_iff. split; [now apply Z.ltb_lt|].
    apply negb_true_iff. destruct (existsb _ _) eqn:E; [|reflexivity].
    apply existsb_exists in E. destruct E as [r [Hin Hr]].
    apply Z.eqb_eq in Hr. exfalso. now apply (Hnone r).
Qed.

Lemma buttons_or_form_witness :
  EventDetails.showRsvpButtons (Some 1) 250 (details_of []) = false
  /\ EventDetails.showReviewForm (Some 1) 250 (details_of []) = true.
Proof.
  split.
  - apply (proj1 (proj2 (buttons_or_form (Some 1) 250 (details_of [])))).
    reflexivity.
  - apply (proj2 (proj2 (buttons_or_form (Some 1) 250 (details_of []))) 1).
    + reflexivity.
    + reflexivity.
    + simpl. lia.
    + intros r [].
Defined.

(* ===================================================================== *)
(** * Creating an event and finding it again *)
(* ===================================================================== *)

Lemma required_time_nil field msg v :
  Zod.required_time field msg v = [] <-> exists t, v = Some t.
Proof.
  destruct v as [t|]; simpl; split; intros H; try discriminate; eauto.
  destruct H as [t H]. discriminate.
Qed.

Lemma eventSchema_parse_valid d s e :
  event_form_valid d s e ->
  CreateEvent.eventSchema_parse d
  = inl {| CreateEvent.v_title := Js.trim (CreateEvent.title d);
           CreateEvent.v_description := Js.trim (CreateEvent.description d);
           CreateEvent.v_location := Js.trim (CreateEvent.location d);
           CreateEvent.v_start_time := s;
           CreateEvent.v_end_time := e |}.
Proof.
  intros (Ht & Hd & Hl & Hs & He & _).
  rewrite (eventSchema_parse_times d s e Hs He).
  unfold CreateEvent.eventSchema_issues. rewrite Hs, He.
  apply (string_min_max_nil "title" 3
           (Some "Title must be at least 3 characters"%string) 200) in Ht.
  apply (string_min_max_nil "description" 10
           (Some "Description must be at least 10 characters"%string) 2000) in Hd.
  apply (string_min_max_nil "location" 3
           (Some "Location must be at least 3 characters"%string) 500) in Hl.
  rewrite Ht, Hd, Hl. reflexivity.
Qed.

(** X12.  A signed-in user with a profile who submits a form that passes
    the schema, with the end after the start, gets the event stored with
    the trimmed texts and as its organizer; nothing else changes.  The
    organizer can then load the event by its id, public or private, and
    the list of public upcoming events shows it to anyone exactly when it
    is public and has not started. *)
Theorem create_event_round_trip :
  forall u isPublic now newid data db s e,
    event_form_valid data s e ->
    Db.has_profile db u = true ->
    Db.has_event db newid = false ->
    let row := created_event u isPublic now newid data s e in
    let db' := add_event row db in
    CreateEvent.handleSubmit (Some u) isPublic now newid data db
    = (db', created_effects)
    /\ EventDetails.select_event (Some u) newid db'
       = inl (EventDetails.embed (Some u) db' row)
    /\ (forall uid later,
          In row (Index.upcoming_rows uid later db')
          <-> isPublic = true /\ later <= s).
Proof.
  intros u isPublic now newid data db s e Hv Hp Hfresh row db'.
  split; [|split].
  - unfold CreateEvent.handleSubmit.
    rewrite (eventSchema_parse_valid data s e Hv).
    destruct Hv as (_ & _ & _ & _ & _ & Hlt). simpl.
    destruct (Z.leb_spec e s) as [|_]; [lia|].
    fold (created_event u isPublic now newid data s e). fold row.
    unfold Db.insert_event, Db.events_insert. simpl Db.Event.organizer_id.
    rewrite uid_is_refl. simpl negb. cbv iota.
    assert (Db.valid_time_range row = true) as ->
      by (unfold Db.valid_time_range; simpl; now apply Z.ltb_lt).
    simpl negb. cbv iota. simpl Db.Event.id. rewrite Hfresh, Hp. reflexivity.
  - unfold EventDetails.select_event, Db.select_events. simpl Db.events.
    rewrite !filter_app.
    assert (filter (fun x => Db.Event.id x =? newid)
                   (filter (Db.events_select (Some u)) (Db.events db)) = []) as ->.
    { apply filter_none. intros x Hx. apply filter_In in Hx.
      apply Z.eqb_neq. intros Heq.
      assert (Db.has_event db newid = true); [|congruence].
      apply existsb_exists. exists x. split; [tauto|now apply Z.eqb_eq]. }
    simpl. unfold Db.events_select at 1. simpl Db.Event.organizer_id.
    rewrite uid_is_refl, orb_true_r. simpl. rewrite Z.eqb_refl. reflexivity.
  - intros uid later. rewrite upcoming_rows_In. simpl.
    split.
    + tauto.
    + intros [H1 H2]. split; [|tauto]. apply in_app_iff. right. now left.
Qed.

Lemma create_event_round_trip_witness :
  CreateEvent.handleSubmit (Some 2) false 5 11 concert_form db_public
  = (add_event (created_event 2 false 5 11 concert_form 1000 2000) db_public,
     created_effects).
Proof.
  apply (create_event_round_trip 2 false 5 11 concert_form db_public 1000 2000).
  - unfold event_form_valid. vm_compute.
    repeat split; try discriminate; reflexivity.
  - reflexivity.
  - reflexivity.
Defined.

(* ===================================================================== *)
(** * What a stored review looks like *)
(* ===================================================================== *)

Lemma trimStart_clean s : starts_clean (Js.trimStart s).
Proof.
  induction s as [|c s IH]; simpl; [exact I|].
  destruct (Js.isWhiteSpace c) eqn:E; [exact IH|exact E].
Qed.

Lemma trimStart_snoc s c :
  Js.isWhiteSpace c = false -> Js.trimStart (s ++ [c]) = Js.trimStart s ++ [c].
Proof.
  intros Hc. induction s as [|a s IH]; simpl.
  - now rewrite Hc.
  - destruct (Js.isWhiteSpace a); [exact IH|reflexivity].
Qed.

Lemma trimEnd_clean s : starts_clean s -> starts_clean (Js.trimEnd s).
Proof.
  unfold Js.trimEnd. destruct s as [|c s]; simpl; intros Hc; [exact I|].
  rewrite trimStart_snoc by exact Hc. rewrite rev_app_distr. simpl. exact Hc.
Qed.

Lemma trim_no_outer_space s : no_outer_space (Js.trim s).
Proof.
  unfold no_outer_space, Js.trim. split.
  - apply trimEnd_clean, trimStart_clean.
  - unfold Js.trimEnd. rewrite rev_involutive. apply trimStart_clean.
Qed.

(** X13.  A review row that a submission adds belongs to the caller and
    to the event of the page, has a rating from 1 to 5, and its comment
    is the typed text without the white space at its ends, 10 to 1000
    code units long; every other row is one that was there before. *)
Theorem stored_review_is_clean :
  forall u id now newid db pg r,
    In r (Db.reviews
            (fst (fst (EventDetails.handleSubmitReview (Some u) id now newid db pg)))) ->
    In r (Db.reviews db)
    \/ (Db.Review.user_id r = u
        /\ Db.Review.event_id r = id
        /\ 1 <= Db.Review.rating r <= 5
        /\ Db.Review.comment r = Js.trim (EventDetails.comment pg)
        /\ 10 <= Js.length (Db.Review.comment r) <= 1000
        /\ no_outer_space (Db.Review.comment r)).
Proof.
  intros u id now newid db pg r.
  unfold EventDetails.handleSubmitReview, EventDetails.reviewSchema_parse.
  destruct (EventDetails.reviewSchema_issues _ _) as [|i l] eqn:Hv; [|now left].
  apply reviewSchema_issues_nil in Hv. destruct Hv as [Hr Hc].
  fold (submitted_review u id now newid pg).
  destruct (Db.insert_review _ _ db) as [db'|err] eqn:E.
  - destruct (EventDetails.fetchEvent _ _ _ _). cbn [fst].
    apply insert_review_inl in E. destruct E as (_ & -> & _).
    intros Hin. apply in_app_iff in Hin. destruct Hin as [Hin|[<-|[]]]; [now left|].
    right. simpl. repeat split; try tauto; try apply trim_no_outer_space.
  - destruct (Js.includes _ _); cbn [fst]; now left.
Qed.

Lemma stored_review_is_clean_witness :
  In (submitted_review 2 10 250 51 (page_with 5 "  A wonderful evening "))
     (Db.reviews db_public)
  \/ (1 <= 5 <= 5
      /\ Db.Review.comment
           (submitted_review 2 10 250 51 (page_with 5 "  A wonderful evening "))
         = Js.str "A wonderful evening").
Proof.
  destruct (stored_review_is_clean 2 10 250 51 db_public
              (page_with 5 "  A wonderful evening ")
              (submitted_review 2 10 250 51 (page_with 5 "  A wonderful evening ")))
    as [H|(_ & _ & Hr & _)].
  - vm_compute. auto.
  - left. exact H.
  - right. split; [exact Hr|reflexivity].
Defined.

(* ===================================================================== *)
(** * The search with an empty text, and the removal of an account *)
(* ===================================================================== *)

Lemma includes_empty s : Js.includes s [] = true.
Proof.
  apply includes_spec. exists [], s. reflexivity.
Qed.

(** X14.  With an empty search text, as on the first render, the list
    shows every fetched event: the empty text occurs in every title. *)
Theorem empty_search_shows_all :
  forall (toLowerCase : Js.jsstring -> Js.jsstring) events,
    toLowerCase [] = [] ->
    Index.filteredEvents toLowerCase [] events = events.
Proof.
  intros lc events Hlc. unfold Index.filteredEvents.
  apply filter_all. intros it _. unfold Index.matches.
  rewrite Hlc, includes_empty. reflexivity.
Qed.

Lemma empty_search_shows_all_witness :
  Index.filteredEvents Index.ascii_toLowerCase []
    (Index.fetchEvents (Some 1) 50 db_listing)
  = Index.fetchEvents (Some 1) 50 db_listing.
Proof.
  apply (empty_search_shows_all Index.ascii_toLowerCase
           (Index.fetchEvents (Some 1) 50 db_listing)).
  reflexivity.
Defined.

(** X15.  Removing an account removes its profile, the events it
    organised, the RSVPs and reviews it wrote, and also what other
    accounts wrote on those events; a row of another account survives
    exactly when it is not attached to an event of the removed one. *)
Theorem delete_user_cascade :
  forall u db,
    let db' := Db.delete_user u db in
    Db.has_profile db' u = false
    /\ (forall p, In p (Db.profiles db')
                  <-> In p (Db.profiles db) /\ Db.Profile.id p <> u)
    /\ (forall e, In e (Db.events db')
                  <-> In e (Db.events db) /\ Db.Event.organizer_id e <> u)
    /\ (forall r, In r (Db.rsvps db')
                  <-> In r (Db.rsvps db) /\ Db.Rsvp.user_id r <> u
                      /\ forall e, In e (Db.events db) ->
                                   Db.Event.id e = Db.Rsvp.event_id r ->
                                   Db.Event.organizer_id e <> u)
    /\ (forall r, In r (Db.reviews db')
                  <-> In r (Db.reviews db) /\ Db.Review.user_id r <> u
                      /\ forall e, In e (Db.events db) ->
                                   Db.Event.id e = Db.Review.event_id r ->
                                   Db.Event.organizer_id e <> u).
Proof.
  intros u db db'.
  assert (forall i,
            existsb (Z.eqb i)
              (map Db.Event.id
                 (filter (fun x => Db.Event.organizer_id x =? u) (Db.events db)))
            = false
            <-> forall e, In e (Db.events db) -> Db.Event.id e = i ->
                          Db.Event.organizer_id e <> u) as Horph.
  { intros i. rewrite <- not_true_iff_false, existsb_eqb_In, in_map_iff. split.
    - intros Hno e Hin Hid Ho. apply Hno. exists e. split; [exact Hid|].
      apply filter_In. split; [exact Hin|now apply Z.eqb_eq].
    - intros Hall [e [Hid Hin]]. apply filter_In in Hin. destruct Hin as [Hin Ho].
      apply Z.eqb_eq in Ho. exact (Hall e Hin Hid Ho). }
  split; [|split; [|split; [|split]]].
  - destruct (Db.has_profile db' u) eqn:E; [|reflexivity].
    apply has_profile_In in E. apply in_map_iff in E. destruct E as [p [Hid Hin]].
    unfold db' in Hin. simpl in Hin. apply filter_In in Hin. destruct Hin as [_ Hne].
    apply negb_true_iff, Z.eqb_neq in Hne. congruence.
  - intros p. unfold db'. simpl. rewrite filter_In, negb_true_iff, Z.eqb_neq. tauto.
  - intros e. unfold db'. simpl. rewrite filter_In, negb_true_iff, Z.eqb_neq. tauto.
  - intros r. unfold db'. simpl.
    rewrite filter_In, andb_true_iff, !negb_true_iff, Z.eqb_neq, Horph. tauto.
  - intros r. unfold db'. simpl.
    rewrite filter_In, andb_true_iff, !negb_true_iff, Z.eqb_neq, Horph. tauto.
Qed.
